(** * bsc-devour: ingest-file verification, sub-file handling and LOD generation

    A shallow embedding of
      - the ingest-file command ([assureUniformTransform],
        [validateCollectionAssetEntry], [validateSingleAssetEntry],
        [assureUniformDSN], [verifyIngestFile], [readIngestFile],
        [handleSubFiles]) and
      - [src/processing/lodGenerator.ts] ([generateLODs]),
    followed by the properties the specification states about them. *)

From Stdlib Require Import ZArith List String Ascii Bool Lia.
From Stdlib Require Import Permutation Sorted DecimalString QArith.
Import ListNotations.

Set Warnings "-register-all".
Close Scope Q_scope.
Open Scope list_scope.
Open Scope string_scope.

(* ================================================================== *)
(** * Part I: the program *)
(* ================================================================== *)

(** ** Text helpers *)

Module Text.

(** Characters the source writes with escapes. *)
Definition dq : string := String (ascii_of_nat 34) EmptyString.
Definition nl : string := String (ascii_of_nat 10) EmptyString.
Definition tab : string := String (ascii_of_nat 9) EmptyString.

(** [s + n] for a loop counter [n]: JavaScript renders a non-negative
    integer in decimal. *)
Definition show_nat (n : nat) : string := NilZero.string_of_uint (Nat.to_uint n).

(** Decimal rendering of an integer ([String(n)] on an integral number). *)
Definition show_Z (z : Z) : string := NilZero.string_of_int (Z.to_int z).

(** [contains s t]: [s] occurs in [t] (what [t.includes(s)] computes). *)
Fixpoint contains (s t : string) : bool :=
  String.prefix s t ||
  match t with
  | EmptyString => false
  | String _ t' => contains s t'
  end.

End Text.
Import Text.

(** ** JavaScript values *)

Module Js.

(** The values [JSON.parse] produces, together with [undefined] (what
    reading a missing property yields).  Numbers are carried as
    integers: the verifier never computes with them.  An array carries,
    next to its elements, the named properties a program may write onto
    it (none after [JSON.parse]).  Documents are trees: [JSON.parse]
    creates no sharing between sub-documents. *)
Inductive jsval : Type :=
| JUndef
| JNull
| JBool (b : bool)
| JNum (n : Z)
| JStr (s : string)
| JArr (elems : list jsval) (props : list (string * jsval))
| JObj (fields : list (string * jsval)).

(** What a run of a function does: it returns, it throws (the
    [TypeError] of reading or writing a property of [null] or
    [undefined]), or it leaves the fragment of JavaScript covered here
    (indexing an array-like object that is not an array). *)
Inductive outcome (A : Type) : Type :=
| Returned (a : A)
| Thrown
| Unmodelled.
Arguments Returned {A} a.
Arguments Thrown {A}.
Arguments Unmodelled {A}.

Definition bind {A B : Type} (m : outcome A) (k : A -> outcome B) : outcome B :=
  match m with
  | Returned a => k a
  | Thrown => Thrown
  | Unmodelled => Unmodelled
  end.

(** Own-property lookup; a missing key reads as [undefined]. *)
Fixpoint lookup (k : string) (fs : list (string * jsval)) : jsval :=
  match fs with
  | [] => JUndef
  | (k', v) :: fs' => if String.eqb k k' then v else lookup k fs'
  end.

(** Own-property write: an existing key keeps its place, a new key is
    appended. *)
Fixpoint store (k : string) (v : jsval) (fs : list (string * jsval))
  : list (string * jsval) :=
  match fs with
  | [] => [(k, v)]
  | (k', v') :: fs' =>
      if String.eqb k k' then (k, v) :: fs' else (k', v') :: store k v fs'
  end.

(** [v.k], for the property names this program reads ([settings], [dsn],
    [assets], [type], [useCase], [single], [collection], [transform],
    [sslMode]): none of them is defined on a prototype, so a primitive
    or an array without such a property reads as [undefined]. *)
Definition get_prop (v : jsval) (k : string) : outcome jsval :=
  match v with
  | JUndef | JNull => Thrown
  | JBool _ | JNum _ | JStr _ => Returned JUndef
  | JArr _ ps => Returned (lookup k ps)
  | JObj fs => Returned (lookup k fs)
  end.

(** [v.k = x] in module (strict) code: a [TypeError] on a primitive. *)
Definition set_prop (v : jsval) (k : string) (x : jsval) : outcome jsval :=
  match v with
  | JArr es ps => Returned (JArr es (store k x ps))
  | JObj fs => Returned (JObj (store k x fs))
  | _ => Thrown
  end.

(** [k in v] for an own property. *)
Fixpoint has_own (k : string) (fs : list (string * jsval)) : bool :=
  match fs with
  | [] => false
  | (k', _) :: fs' => String.eqb k k' || has_own k fs'
  end.

(** The one-character strings [s[0]], [s[1]], ... of a string. *)
Fixpoint chars (s : string) : list jsval :=
  match s with
  | EmptyString => []
  | String c s' => JStr (String c EmptyString) :: chars s'
  end.

(** [v === undefined || v === null] *)
Definition nullish (v : jsval) : bool :=
  match v with
  | JUndef | JNull => true
  | _ => false
  end.

(** [typeof v === "object"]: objects, arrays and [null]. *)
Definition typeof_object (v : jsval) : bool :=
  match v with
  | JNull | JArr _ _ | JObj _ => true
  | _ => false
  end.

(** [v === s] for a string literal [s]. *)
Definition is_string (v : jsval) (s : string) : bool :=
  match v with
  | JStr s' => String.eqb s' s
  | _ => false
  end.

End Js.
Import Js.

Declare Scope outcome_scope.
Delimit Scope outcome_scope with outcome.
Notation "x <- m ;; k" := (bind m (fun x => k))
  (at level 61, m at next level, right associativity) : outcome_scope.
Open Scope outcome_scope.

(** ** Result/error pairs and the collaborators of the command *)

(** [ResErr<T>]: [{result, error}]; [None] is [null] on the error side.
    For a document-valued result the [null] result is [JNull]. *)
Record ResErr (A : Type) : Type := mkResErr { result : A; error : option string }.
Arguments mkResErr {A} result error.
Arguments result {A} r.
Arguments error {A} r.

Definition ok (v : jsval) : ResErr jsval := mkResErr v None.
Definition fail (e : string) : ResErr jsval := mkResErr JNull (Some e).

(** The type declarations of [ts/types.ts] the command passes to the
    conformance checker; the checker treats them as opaque. *)
Inductive TypeDeclaration : Type :=
| DBDSN_TYPEDECL
| TRANSFORM_DTO_TYPEDECL
| INGEST_FILE_COLLECTION_ASSET_TYPEDECL
| INGEST_FILE_COLLECTION_FIELD_TYPEDECL
| INGEST_FILE_COLLECTION_ENTRY_TYPEDECL
| INGEST_FILE_SINGLE_ASSET_TYPEDECL
| INGEST_FILE_SINGLE_ASSET_FIELD_TYPEDECL
| INGEST_FILE_SETTINGS_TYPEDECL.

(** [processing/typeChecker.ts]: [null] ([None]) when the value conforms,
    a description of the mismatch otherwise. *)
Class TypeChecker : Type :=
  { conformsToType : jsval -> TypeDeclaration -> option string }.

(** [processing/cliInputProcessor.ts]: the readers of the compact
    notations. *)
Class CliInputProcessor : Type :=
  { readCompactDSNNotationRaw : string -> ResErr jsval;
    readCompactTransformNotationRaw : string -> ResErr jsval }.

(** ** The ingest-file verifier *)

Module IngestFile.

Section Verifier.
Context {TC : TypeChecker} {CLI : CliInputProcessor}.

Definition assureUniformTransform (maybeTransform : jsval) : ResErr jsval :=
  match maybeTransform with
  | JStr s =>
      let compactNotationRes := readCompactTransformNotationRaw s in
      match error compactNotationRes with
      | Some e => fail e
      | None => ok (result compactNotationRes)
      end
  | JNull | JArr _ _ | JObj _ =>
      match conformsToType maybeTransform TRANSFORM_DTO_TYPEDECL with
      | Some typeError => fail ("Transform field does not conform to type: " ++ typeError)
      | None => ok maybeTransform
      end
  | _ => fail "Transform field is not compact CLI notation (string) or an object."
  end.

Definition dsn_shape_error : string :=
  "DSN field is not compact CLI notation (" ++ dq ++
  "host port, username password, dbName, sslMode" ++ dq ++ ") or an object.".

Definition assureUniformDSN (dsn : jsval) : outcome (ResErr jsval) :=
  match dsn with
  | JStr s =>
      let compactNotationRes := readCompactDSNNotationRaw s in
      match error compactNotationRes with
      | Some e => Returned (fail e)
      | None => Returned (ok (result compactNotationRes))
      end
  | JNull | JArr _ _ | JObj _ =>
      match conformsToType dsn DBDSN_TYPEDECL with
      | Some typeError =>
          Returned (fail ("DSN object does not conform to expected type:" ++ nl ++ tab ++ typeError))
      | None =>
          sslMode <- get_prop dsn "sslMode" ;;
          if nullish sslMode
          then dsn' <- set_prop dsn "sslMode" (JStr "disable") ;; Returned (ok dsn')
          else Returned (ok dsn)
      end
  | _ => Returned (fail dsn_shape_error)
  end.

(** The body of the [for] loop of [validateCollectionAssetEntry] over
    [asset.collection.entries], from index [i] on.  The loop writes each
    canonical transform back into its entry, so the entries are returned
    as the loop leaves them, next to the error ([None] for [null]). *)
Fixpoint validateEntries (entryNum i : nat) (entries : list jsval)
  : outcome (list jsval * option string) :=
  match entries with
  | [] => Returned ([], None)
  | source :: rest =>
      match conformsToType source INGEST_FILE_COLLECTION_ENTRY_TYPEDECL with
      | Some sourceTypeError =>
          Returned (source :: rest,
                    Some ("Type error in source nr: " ++ show_nat i ++
                          " in collection asset nr: " ++ show_nat entryNum ++
                          ": " ++ sourceTypeError))
      | None =>
          transform <- get_prop source "transform" ;;
          let uniformTransformAttempt := assureUniformTransform transform in
          match error uniformTransformAttempt with
          | Some e => Returned (source :: rest, Some e)
          | None =>
              source' <- set_prop source "transform" (result uniformTransformAttempt) ;;
              r <- validateEntries entryNum (S i) rest ;;
              Returned (source' :: fst r, snd r)
          end
      end
  end.

(** The loop on the value found at [asset.collection.entries]; [asset]
    and [collection] are rebuilt around the entries written to. *)
Definition validateEntriesOf (asset collection entries : jsval) (entryNum : nat)
  : outcome (jsval * option string) :=
  match entries with
  | JArr es ps =>
      r <- validateEntries entryNum 0 es ;;
      collection' <- set_prop collection "entries" (JArr (fst r) ps) ;;
      asset' <- set_prop asset "collection" collection' ;;
      Returned (asset', snd r)
  | JUndef | JNull => Thrown                  (* [entries.length] *)
  | JBool _ | JNum _ => Returned (asset, None) (* [0 < undefined] is false *)
  | JStr s =>
      r <- validateEntries entryNum 0 (chars s) ;;
      Returned (asset, snd r)                 (* a character has no [transform] *)
  | JObj _ => Unmodelled
  end.

(** Returns the asset as the call leaves it and the error. *)
Definition validateCollectionAssetEntry (asset : jsval) (entryNum : nat)
  : outcome (jsval * option string) :=
  match conformsToType asset INGEST_FILE_COLLECTION_ASSET_TYPEDECL with
  | Some topLevelTypeError =>
      Returned (asset,
                Some ("Type error in collection asset nr " ++ show_nat entryNum ++
                      ": " ++ topLevelTypeError))
  | None =>
      collection <- get_prop asset "collection" ;;
      match conformsToType collection INGEST_FILE_COLLECTION_FIELD_TYPEDECL with
      | Some collectionFieldTypeError =>
          Returned (asset,
                    Some ("Type error in collection field on collection asset nr " ++
                          show_nat entryNum ++ ": " ++ collectionFieldTypeError))
      | None =>
          match collection with
          | JUndef | JNull => Thrown
          | JBool _ | JNum _ | JStr _ => Thrown (* [undefined.length] *)
          | JArr _ ps =>
              if has_own "entries" ps
              then validateEntriesOf asset collection (lookup "entries" ps) entryNum
              else Returned (asset, None) (* [Array.prototype.entries], of length 0 *)
          | JObj fs => validateEntriesOf asset collection (lookup "entries" fs) entryNum
          end
      end
  end.

Definition validateSingleAssetEntry (asset : jsval) (entryNum : nat)
  : outcome (option string) :=
  match conformsToType asset INGEST_FILE_SINGLE_ASSET_TYPEDECL with
  | Some typeError =>
      Returned (Some ("Type error in single asset nr " ++ show_nat entryNum ++
                      ": " ++ typeError))
  | None =>
      single <- get_prop asset "single" ;;
      match conformsToType single INGEST_FILE_SINGLE_ASSET_FIELD_TYPEDECL with
      | Some typeErrorOfSingleField =>
          Returned (Some ("Type error in single field of single asset nr " ++
                          show_nat entryNum ++ ": " ++ typeErrorOfSingleField))
      | None => Returned None
      end
  end.

(** The [for] loop of [verifyIngestFile] over [rawFile.assets], from
    index [i] on: the assets as the loop leaves them, and the error of
    the first failing entry. *)
Fixpoint verifyAssets (i : nat) (assets : list jsval)
  : outcome (list jsval * option string) :=
  match assets with
  | [] => Returned ([], None)
  | asset :: rest =>
      type <- get_prop asset "type" ;;
      if nullish type
      then Returned (asset :: rest, Some ("No type field found in asset nr:" ++ show_nat i))
      else
        useCase <- get_prop asset "useCase" ;;
        if nullish useCase
        then Returned (asset :: rest, Some ("No useCase field found in asset nr:" ++ show_nat i))
        else if is_string type "single"
        then
          err <- validateSingleAssetEntry asset i ;;
          match err with
          | Some e => Returned (asset :: rest, Some e)
          | None =>
              r <- verifyAssets (S i) rest ;;
              Returned (asset :: fst r, snd r)
          end
        else if is_string type "collection"
        then
          c <- validateCollectionAssetEntry asset i ;;
          match snd c with
          | Some e => Returned (fst c :: rest, Some e)
          | None =>
              r <- verifyAssets (S i) rest ;;
              Returned (fst c :: fst r, snd r)
          end
        else Returned (asset :: rest, Some ("Unknown asset type in asset nr:" ++ show_nat i))
  end.

Definition verifyIngestFile (rawFile : jsval) : outcome (ResErr jsval) :=
  settings <- get_prop rawFile "settings" ;;
  if nullish settings
  then Returned (fail "No settings field and corresponding object found in ingest file.")
  else
    dsn <- get_prop settings "dsn" ;;
    if nullish dsn
    then Returned (fail "No dsn field found in ingest file under settings.")
    else
      uniformDSNAttempt <- assureUniformDSN dsn ;;
      match error uniformDSNAttempt with
      | Some e => Returned (fail e)
      | None =>
          settings' <- set_prop settings "dsn" (result uniformDSNAttempt) ;;
          rawFile' <- set_prop rawFile "settings" settings' ;;
          assets <- get_prop rawFile' "assets" ;;
          if nullish assets
          then Returned (fail "No assets field and corresponding object found in ingest file.")
          else
            match assets with
            | JArr (a :: es) ps =>
                r <- verifyAssets 0 (a :: es) ;;
                match snd r with
                | Some e => Returned (fail e)
                | None =>
                    rawFile'' <- set_prop rawFile' "assets" (JArr (fst r) ps) ;;
                    Returned (ok rawFile'')
                end
            | _ =>
                Returned (fail "Assets field in ingest file is not an array or is an empty array.")
            end
      end.

End Verifier.

End IngestFile.

(** ** Sub-files of the ingest file *)

Module SubFiles.
Import IngestFile.

(** Modelled from the spec: [SettingsSubFile] of [ts/types.ts] is
    missing.  A declaration carries the locator [path] of the sub-file
    and the inclusive bounds [start] and [end] its asset identifiers
    must fall within. *)
Record SettingsSubFile : Type :=
  { path : string; start : Z; end_ : Z }.

(** Modelled from the spec: the declaration as the object the
    conformance checker is handed, under the field names of the spec. *)
Definition declaration_value (d : SettingsSubFile) : jsval :=
  JObj [("path", JStr (path d)); ("start", JNum (start d)); ("end", JNum (end_ d))].

(** [Bun.file(url).exists()], [.text()], [JSON.parse] (the document, or
    the exception as string concatenation renders it) and
    [import.meta.dir]. *)
Class Runtime : Type :=
  { file_exists : string -> bool;
    file_text : string -> string;
    JSON_parse : string -> jsval + string;
    import_meta_dir : string }.

(** [context.logger.log(message, level)]: the log is the list of the
    entries written, oldest first. *)
Inductive LogLevel : Type := ERROR | FATAL.
Definition LogEntry : Type := (string * LogLevel)%type.

Definition logged (log : list LogEntry) (message : string) (level : LogLevel)
  : list LogEntry :=
  app log [(message, level)].

(** [if (e)] on a [string | null]: the empty string is falsy too. *)
Definition truthy (e : option string) : option string :=
  match e with
  | Some s => if String.eqb s "" then None else Some s
  | None => None
  end.

(** *** The range check *)

(** Modelled from the spec: the two ways the range check of
    [checkIDRangesOfSubFiles] fails, with the declarations at fault. *)
Inductive RangeError : Type :=
| MalformedRange (d : SettingsSubFile)
| OverlappingRanges (a b : SettingsSubFile).

(** Modelled from the spec: the violation of [start <= end]. *)
Definition malformed (d : SettingsSubFile) : bool := (end_ d <? start d)%Z.

(** Modelled from the spec: the stable sort by [start] of
    [checkIDRangesOfSubFiles], as an insertion sort: a declaration goes
    in front of the first one that does not start before it, so ties keep
    the order of declaration. *)
Fixpoint insert_by_start (d : SettingsSubFile) (l : list SettingsSubFile)
  : list SettingsSubFile :=
  match l with
  | [] => [d]
  | e :: l' => if (start d <=? start e)%Z then d :: l else e :: insert_by_start d l'
  end.

(** Modelled from the spec: see [insert_by_start]. *)
Fixpoint sort_by_start (l : list SettingsSubFile) : list SettingsSubFile :=
  match l with
  | [] => []
  | d :: l' => insert_by_start d (sort_by_start l')
  end.

(** Modelled from the spec: the scan of adjacent pairs of
    [checkIDRangesOfSubFiles], [current.end >= next.start] being an
    overlap. *)
Fixpoint first_overlap (l : list SettingsSubFile) : option RangeError :=
  match l with
  | current :: ((next :: _) as rest) =>
      if (start next <=? end_ current)%Z
      then Some (OverlappingRanges current next)
      else first_overlap rest
  | _ => None
  end.

(** Modelled from the spec: the steps of [checkIDRangesOfSubFiles],
    well-formedness first. *)
Definition find_range_error (declarations : list SettingsSubFile) : option RangeError :=
  match find malformed declarations with
  | Some d => Some (MalformedRange d)
  | None => first_overlap (sort_by_start declarations)
  end.

(** Modelled from the spec: the messages of [checkIDRangesOfSubFiles];
    the spec fixes what they name, not their wording. *)
Definition describe_range_error (e : RangeError) : string :=
  match e with
  | MalformedRange d =>
      "Sub-file " ++ path d ++ " declares an id range that starts after its end"
  | OverlappingRanges a b =>
      "The id ranges of sub-files " ++ path a ++ " and " ++ path b ++ " overlap"
  end.

(** Modelled from the spec: [checkIDRangesOfSubFiles] of
    [ingestFileVerifier.ts] is missing.  Each declaration must have
    [start <= end], a violation failing at once and naming the
    declaration; then the declarations are sorted by [start], stably,
    and adjacent pairs are scanned, [current.end >= next.start] being an
    overlap error that names both declarations by their sources. *)
Definition checkIDRangesOfSubFiles (subFiles : list SettingsSubFile) : option string :=
  option_map describe_range_error (find_range_error subFiles).

(** *** The identifier assignments *)

(** Modelled from the spec: the failure of
    [verifySubFileIDAssignments], with the identifier and the bound it
    violates. *)
Inductive AssignmentError : Type :=
| IdOutOfRange (id bound : Z).

(** Modelled from the spec: the identifier of an asset, its numeric
    [id]. *)
Definition identifier (asset : jsval) : list Z :=
  match asset with
  | JObj fs => match lookup "id" fs with JNum n => [n] | _ => [] end
  | _ => []
  end.

(** Modelled from the spec: the asset identifiers found in a sub-file,
    in document order. *)
Definition identifiers (subFile : jsval) : list Z :=
  match subFile with
  | JObj fs =>
      match lookup "assets" fs with
      | JArr assets _ => flat_map identifier assets
      | _ => []
      end
  | _ => []
  end.

(** Modelled from the spec: the first identifier outside
    [[start, end]], with the bound on its side. *)
Fixpoint first_out_of_range (d : SettingsSubFile) (ids : list Z) : option AssignmentError :=
  match ids with
  | [] => None
  | id :: rest =>
      if (id <? start d)%Z then Some (IdOutOfRange id (start d))
      else if (end_ d <? id)%Z then Some (IdOutOfRange id (end_ d))
      else first_out_of_range d rest
  end.

(** Modelled from the spec: the message of
    [verifySubFileIDAssignments]; the spec fixes what it names, not its
    wording. *)
Definition describe_assignment_error (d : SettingsSubFile) (e : AssignmentError) : string :=
  match e with
  | IdOutOfRange id bound =>
      "Asset id " ++ show_Z id ++ " of sub-file " ++ path d ++
      " is outside the declared range, whose bound is " ++ show_Z bound
  end.

(** Modelled from the spec: [verifySubFileIDAssignments] of
    [ingestFileVerifier.ts] is missing.  Every asset identifier found in
    the sub-file must lie within [[start, end]] of its declaration; one
    outside is a failure naming the identifier and the declared bound it
    violates. *)
Definition verifySubFileIDAssignments (d : SettingsSubFile) (subFile : jsval)
  : option string :=
  option_map (describe_assignment_error d) (first_out_of_range d (identifiers subFile)).

Section Command.
Context {TC : TypeChecker} {CLI : CliInputProcessor} {RT : Runtime}.

(** Modelled from the spec: [verifyIngestFileAssets] of
    [ingestFileVerifier.ts] is missing.  It validates the asset list of
    the retrieved document with the entry validators, as
    [verifyIngestFile] does for the assets of the main file; a sub-file
    carries no [settings].  Returns the document as the validators leave
    it, and the error. *)
Definition verifyIngestFileAssets (rawFile : jsval) : outcome (jsval * option string) :=
  assets <- get_prop rawFile "assets" ;;
  if nullish assets
  then Returned (rawFile, Some "No assets field and corresponding object found in ingest file.")
  else
    match assets with
    | JArr (a :: es) ps =>
        r <- verifyAssets 0 (a :: es) ;;
        rawFile' <- set_prop rawFile "assets" (JArr (fst r) ps) ;;
        Returned (rawFile', snd r)
    | _ =>
        Returned (rawFile, Some "Assets field in ingest file is not an array or is an empty array.")
    end.

Definition readIngestFile (url : string) : ResErr jsval :=
  if negb (file_exists url)
  then fail ("File: " ++ dq ++ url ++ dq ++ " does not exist. WD: " ++ import_meta_dir)
  else
    match JSON_parse (file_text url) with
    | inr exception => fail ("Failed to parse IngestFile: " ++ exception)
    | inl ingestScript => ok ingestScript
    end.

Definition failed (e : string) : ResErr (option (list jsval)) := mkResErr None (Some e).

(** The [for ... of] loop of [handleSubFiles]; [verifiedSubFiles] and
    the log are threaded through. *)
Fixpoint verifySubFiles (subFiles : list SettingsSubFile) (verifiedSubFiles : list jsval)
  (log : list LogEntry) : outcome (ResErr (option (list jsval)) * list LogEntry) :=
  match subFiles with
  | [] => Returned (mkResErr (Some verifiedSubFiles) None, log)
  | subFileDeclaration :: rest =>
      match conformsToType (declaration_value subFileDeclaration)
              INGEST_FILE_SETTINGS_TYPEDECL with
      | Some typeCheck =>
          Returned (failed ("Type error in sub-file declaration: " ++ typeCheck),
                    logged log ("[if_cmd] Type error in sub-file declaration: " ++ typeCheck)
                      ERROR)
      | None =>
          let url := path subFileDeclaration in
          let read := readIngestFile url in
          match error read with
          | Some e =>
              Returned (failed e,
                        logged log ("[if_cmd] Failed to read sub-file: " ++ url ++
                                    nl ++ tab ++ e) ERROR)
          | None =>
              v <- verifyIngestFileAssets (result read) ;;
              match truthy (snd v) with
              | Some verifyError =>
                  Returned (failed verifyError,
                            logged log ("[if_cmd] Failed to verify sub-file: " ++ url ++
                                        nl ++ tab ++ verifyError) ERROR)
              | None =>
                  match truthy (verifySubFileIDAssignments subFileDeclaration (fst v)) with
                  | Some idCheckError =>
                      Returned (failed idCheckError,
                                logged log ("[if_cmd] ID assignment error in sub-file: " ++
                                            url ++ nl ++ tab ++ idCheckError) ERROR)
                  | None => verifySubFiles rest (verifiedSubFiles ++ [fst v])%list log
                  end
              end
          end
      end
  end.

Definition handleSubFiles (subFiles : option (list SettingsSubFile)) (log : list LogEntry)
  : outcome (ResErr (option (list jsval)) * list LogEntry) :=
  match subFiles with
  | None | Some [] => Returned (mkResErr (Some []) None, log)
  | Some declarations =>
      match truthy (checkIDRangesOfSubFiles declarations) with
      | Some rangeCheckError =>
          Returned (failed rangeCheckError,
                    logged log ("[if_cmd] Range check failed: " ++ rangeCheckError) ERROR)
      | None => verifySubFiles declarations [] log
      end
  end.

End Command.

End SubFiles.

(** ** Level-of-detail generation, [processing/lodGenerator.ts] *)

Module Blob.
(** A [Blob]: its bytes and its MIME type as given. *)
Record t : Type := { bytes : list Byte.byte; type : string }.
Definition size (b : t) : nat := List.length (bytes b).
End Blob.

Module Lod.

(** The enum [ImageMIMEType] is declared in [ts/metaTypes.ts], which is
    missing; these are the members [lodGenerator.ts] names. *)
Inductive ImageMIMEType : Type := JPEG | PNG | WEBP | GIF | TIFF | SVG.

(** [LODDTO] of [ts/types.ts], with the fields of the object literals
    [generateLODs] builds. *)
Record LODDTO : Type :=
  { detailLevel : nat; blob : Blob.t; type : ImageMIMEType }.

(** A [ResErr<T>] received from a collaborator, as its type declares it:
    [{result, error: null}] or [{result: null, error}]. *)
Inductive Received (A : Type) : Type :=
| Result (result : A)
| Error (error : string).
Arguments Result {A} result.
Arguments Error {A} error.

(** [findConformingMIMEType] of [typeChecker.ts],
    [checkIfImageTypeIsSupported] of [imageUtil.ts], and
    [downscaleImage], which hands the image to [sharp] and turns any
    exception into an error. *)
Class ImageTools : Type :=
  { findConformingMIMEType : string -> Received ImageMIMEType;
    checkIfImageTypeIsSupported : ImageMIMEType -> bool;
    downscaleImage : Blob.t -> Received Blob.t }.

(** [blob.size / 1000], compared with the threshold as a rational. *)
Definition kilobytes (b : Blob.t) : Q := Z.of_nat (Blob.size b) # 1000.
Definition Qlt_bool (x y : Q) : bool := negb (Qle_bool y x).

Definition is_SVG (t : ImageMIMEType) : bool :=
  match t with SVG => true | _ => false end.

Section Generator.
Context {IT : ImageTools}.

Definition generated (lods : list LODDTO) : ResErr (option (list LODDTO)) :=
  mkResErr (Some lods) None.
Definition not_generated (e : string) : ResErr (option (list LODDTO)) :=
  mkResErr None (Some e).

(** The [while] loop of [generateLODs].  Nothing bounds the number of
    rounds in the source; [fuel] bounds it here, and [None] is a run
    that needs more. *)
Fixpoint downscaleWhileAbove (fuel : nat) (sizeThreshold : Q) (blobType : ImageMIMEType)
  (currentBlob : Blob.t) (detailLevel : nat) (lodsGenerated : list LODDTO)
  : option (ResErr (option (list LODDTO))) :=
  if Qlt_bool sizeThreshold (kilobytes currentBlob)
  then
    match fuel with
    | O => None
    | S fuel' =>
        match downscaleImage currentBlob with
        | Error e => Some (not_generated e)
        | Result result =>
            downscaleWhileAbove fuel' sizeThreshold blobType result (S detailLevel)
              (lodsGenerated ++
               [{| detailLevel := detailLevel; blob := result; type := blobType |}])%list
        end
    end
  else Some (generated lodsGenerated).

Definition generateLODsOfType (fuel : nat) (blob : Blob.t) (sizeThreshold : Q)
  (blobType : ImageMIMEType) : option (ResErr (option (list LODDTO))) :=
  if negb (checkIfImageTypeIsSupported blobType)
  then Some (not_generated ("Unsupported image type: " ++ Blob.type blob))
  else if Nat.eqb (Blob.size blob) 0
  then Some (not_generated "This blob is empty.")
  else if is_SVG blobType
  then Some (generated [{| detailLevel := 0; blob := blob; type := blobType |}])
  else
    let lodsGenerated := [{| detailLevel := 0; blob := blob; type := blobType |}] in
    if Qlt_bool (kilobytes blob) sizeThreshold
    then Some (generated lodsGenerated)
    else downscaleWhileAbove fuel sizeThreshold blobType blob 1 lodsGenerated.

Definition generateLODs (fuel : nat) (blob : Blob.t) (sizeThreshold : Q)
  (typeOverwrite : option ImageMIMEType) : option (ResErr (option (list LODDTO))) :=
  match typeOverwrite with
  | Some blobType => generateLODsOfType fuel blob sizeThreshold blobType
  | None =>
      match findConformingMIMEType (Blob.type blob) with
      | Error e => Some (not_generated e)
      | Result blobType => generateLODsOfType fuel blob sizeThreshold blobType
      end
  end.

End Generator.

End Lod.

(** ** Fetching blobs, [networking/blobFetcher.ts] *)

Module BlobFetcher.
Import Lod.

(** A [Response] as [fetchBlobOverHTTP] uses it: [ok], [status],
    [headers.has], [headers.get] (where [has] holds) and [blob()], which
    resolves or throws an error with a message. *)
Record Response : Type :=
  { ok : bool;
    status : nat;
    headers_has : string -> bool;
    headers_get : string -> string;
    body : Received Blob.t }.

(** What the module takes from its environment: [fetch] (a response, or
    an error thrown, by its message), [Bun.file] (the file as a blob if
    it exists), whether [arrayBuffer()] on the file resolves, the type a
    blob constructed with the option [{type}] reports, and
    [findConformingMIMEType] of [runtimeTypeChecker/type]. *)
Class Environment : Type :=
  { fetch : string -> Received Response;
    Bun_file : string -> option Blob.t;
    arrayBuffer_resolves : string -> bool;
    constructed_type : string -> string;
    findConformingMIMEType : string -> Received string }.

Definition fetched (b : Blob.t) : ResErr (option Blob.t) := mkResErr (Some b) None.
Definition not_fetched (e : string) : ResErr (option Blob.t) := mkResErr None (Some e).

Definition contentTypeHeaderNames : list string :=
  ["content-type"; "Content-Type"; "Content-type"; "Content-Type"; "content-Type";
   "CONTENT-TYPE"; "ContentType"; "contentType"].

(** The [for] loop with its [break]: the value under the first name the
    headers have, the empty string if they have none. *)
Fixpoint discoverContentType (response : Response) (names : list string) : string :=
  match names with
  | [] => ""
  | headerName :: rest =>
      if headers_has response headerName
      then headers_get response headerName
      else discoverContentType response rest
  end.

Definition getTypeFromResponseHeaders (response : Response) : Received string :=
  let discoveredContentType := discoverContentType response contentTypeHeaderNames in
  if String.eqb discoveredContentType ""
  then Error "Could not determine content type from headers"
  else Result discoveredContentType.

(** [url.split('.').pop()]: what follows the last dot, the whole of
    [url] if it has none; [acc] holds the piece read so far. *)
Fixpoint last_piece (acc : string) (url : string) : string :=
  match url with
  | EmptyString => acc
  | String c rest =>
      if Ascii.eqb c "."%char
      then last_piece EmptyString rest
      else last_piece (acc ++ String c EmptyString) rest
  end.

Definition getTypeFromURL (url : string) : Received string :=
  let extension := last_piece EmptyString url in
  if String.eqb extension "jpeg" then Result "image/jpeg"
  else if String.eqb extension "jpg" then Result "image/jpeg"
  else if String.eqb extension "png" then Result "image/png"
  else if String.eqb extension "gif" then Result "image/gif"
  else if String.eqb extension "bmp" then Result "image/bmp"
  else if String.eqb extension "svg" then Result "image/svg+xml"
  else Error "Could not determine content type from url".

Section Fetchers.
Context {ENV : Environment}.

(** [new Blob([blob], { type })] *)
Definition retyped (blob : Blob.t) (type : string) : Blob.t :=
  {| Blob.bytes := Blob.bytes blob; Blob.type := constructed_type type |}.

(** The whole body sits in a [try]; what is thrown inside comes back as
    the error.  The optional logger is left out. *)
Definition fetchBlobOverHTTP (url : string) : ResErr (option Blob.t) :=
  match fetch url with
  | Error message => not_fetched message
  | Result response =>
      if negb (ok response)
      then not_fetched ("HTTP error! status: " ++ show_nat (status response))
      else
        match body response with
        | Error message => not_fetched message
        | Result blob =>
            if String.eqb (Blob.type blob) ""
            then
              let discovery :=
                match getTypeFromResponseHeaders response with
                | Result discoveredType => Result discoveredType
                | Error _ =>
                    match getTypeFromURL url with
                    | Result discoveredType => Result discoveredType
                    | Error e => Error ("Could not determine content type: " ++ e)
                    end
                end in
              match discovery with
              | Error e => not_fetched e
              | Result discoveredType =>
                  match findConformingMIMEType discoveredType with
                  | Error e => not_fetched e
                  | Result result => fetched (retyped blob result)
                  end
              end
            else fetched blob
        end
  end.

(** [None] when [await file.arrayBuffer()] rejects: the call is not in
    a [try]. *)
Definition fetchBlobFromFile (url : string) (init : bool)
  : option (ResErr (option Blob.t)) :=
  match Bun_file url with
  | None => Some (not_fetched "File does not exist")
  | Some file =>
      match findConformingMIMEType (Blob.type file) with
      | Error e => Some (not_fetched e)
      | Result result =>
          let file' :=
            if String.eqb result (Blob.type file) then file else retyped file result in
          if init && negb (arrayBuffer_resolves url)
          then None
          else Some (fetched file')
      end
  end.

Definition fetchBlobFromUrl (url : string) : option (ResErr (option Blob.t)) :=
  if String.eqb url ""
  then Some (not_fetched "Invalid source url")
  else if String.prefix "http" url || String.prefix "www" url
  then Some (fetchBlobOverHTTP url)
  else fetchBlobFromFile url false.

End Fetchers.

End BlobFetcher.

(** ** The command: [handleIngestFileInput] and [processIngestFile] *)

Module Command.
Import IngestFile SubFiles.

(** JavaScript prints integers from 10^21 on in exponent notation. *)
Definition enormous (n : Z) : bool := (10 ^ 21 <=? Z.abs n)%Z.

(** [String(v)], as string concatenation applies it to an operand.  An
    object prints as "[object Object]"; one that carries a property
    [toString] of its own, which cannot be called, has no primitive
    value, and the conversion throws.  An array prints its elements
    separated by commas, [null] and [undefined] as nothing. *)
Fixpoint to_string (v : jsval) : outcome string :=
  match v with
  | JUndef => Returned "undefined"
  | JNull => Returned "null"
  | JBool b => Returned (if b then "true" else "false")
  | JNum n => if enormous n then Unmodelled else Returned (show_Z n)
  | JStr s => Returned s
  | JObj fs => if has_own "toString" fs then Thrown else Returned "[object Object]"
  | JArr es ps =>
      if has_own "toString" ps then Thrown
      else if has_own "join" ps then Returned "[object Array]"
      else
        (fix join (l : list jsval) : outcome string :=
           match l with
           | [] => Returned ""
           | x :: rest =>
               s <- match x with
                    | JUndef | JNull => Returned ""
                    | _ => to_string x
                    end ;;
               match rest with
               | [] => Returned s
               | _ :: _ => r <- join rest ;; Returned (s ++ "," ++ r)
               end
           end) es
  end.

(** The calls made on [context.db]. *)
Inductive DbCall : Type :=
| Connect (dsn : jsval)
| EstablishCollection (collection : jsval).

(** What a run leaves behind: the entries written to the log (the level
    is [None] where the call passes none) and the calls made on the
    database, both oldest first. *)
Record Effects : Type :=
  { entries : list (string * option LogLevel); calls : list DbCall }.

Definition write (w : Effects) (message : string) (level : option LogLevel) : Effects :=
  {| entries := app (entries w) [(message, level)]; calls := calls w |}.

Definition call (w : Effects) (c : DbCall) : Effects :=
  {| entries := entries w; calls := app (calls w) [c] |}.

(** [context.db]: what [connect] and [instance.establishCollection]
    answer, given the calls made before. *)
Class Database : Type :=
  { connect : list DbCall -> jsval -> option string;
    establishCollection : list DbCall -> jsval -> ResErr jsval }.

(** [readUrlArg] of [processing/cliInputProcessor.ts]. *)
Class UrlArgs : Type :=
  { readUrlArg : string -> Lod.Received string }.

Definition failure (e : string) : ResErr (option string) := mkResErr None (Some e).

Section Runs.
Context {TC : TypeChecker} {CLI : CliInputProcessor} {RT : Runtime}
        {DB : Database} {ARGS : UrlArgs}.

(** [collection.entries]; on an array without such a property this is
    the method of the prototype, which the values here do not cover. *)
Definition entries_of (collection : jsval) : outcome jsval :=
  match collection with
  | JArr _ ps =>
      if has_own "entries" ps then Returned (lookup "entries" ps) else Unmodelled
  | _ => get_prop collection "entries"
  end.

(** The object [{useCase, name, entries}] handed to
    [establishCollection]. *)
Definition collectionRequest (asset : jsval) : outcome jsval :=
  useCase <- get_prop asset "useCase" ;;
  name <- get_prop asset "name" ;;
  collection <- get_prop asset "collection" ;;
  entries <- entries_of collection ;;
  Returned (JObj [("useCase", useCase); ("name", name); ("entries", entries)]).

(** The [for ... of] loop of [processIngestFile] and the [return] that
    follows it. *)
Fixpoint uploadAssets (assets : list jsval) (w : Effects)
  : outcome (ResErr (option string) * Effects) :=
  match assets with
  | [] =>
      Returned (mkResErr (Some "Ingest file succesfully processed and uploaded") None, w)
  | asset :: rest =>
      type <- get_prop asset "type" ;;
      if is_string type "single"
      then
        id <- get_prop asset "id" ;;
        shown <- to_string id ;;
        uploadAssets rest
          (write w ("[IngestFile] Uploading single asset id: " ++ shown) None)
      else if is_string type "collection"
      then
        name <- get_prop asset "name" ;;
        shown <- to_string name ;;
        let w1 := write w ("[IngestFile] Uploading collection name: " ++ shown) None in
        request <- collectionRequest asset ;;
        let res := establishCollection (calls w1) request in
        let w2 := call w1 (EstablishCollection request) in
        match error res with
        | Some e =>
            Returned (failure e,
                      write w2 ("[IngestFile] Error while establishing collection: " ++
                                nl ++ tab ++ e) (Some ERROR))
        | None => uploadAssets rest w2
        end
      else uploadAssets rest w
  end.

Definition processIngestFile (ingestScript : jsval) (w : Effects)
  : outcome (ResErr (option string) * Effects) :=
  settings <- get_prop ingestScript "settings" ;;
  dsn <- get_prop settings "dsn" ;;
  let dbErr := connect (calls w) dsn in
  let w1 := call w (Connect dsn) in
  match dbErr with
  | Some e => Returned (failure e, w1)
  | None =>
      let w2 := write w1 "[IngestFile] Processing ingest file." None in
      assets <- get_prop ingestScript "assets" ;;
      match assets with
      | JArr es _ => uploadAssets es w2
      | JStr s => uploadAssets (chars s) w2
      | _ => Thrown (* not iterable *)
      end
  end.

(** The loop over [args]: the last argument that starts with "path="
    gives the URL. *)
Fixpoint readPathArgs (args : list string) (url : string) : Lod.Received string :=
  match args with
  | [] => Lod.Result url
  | arg :: rest =>
      if String.prefix "path=" arg
      then
        match readUrlArg arg with
        | Lod.Error e => Lod.Error e
        | Lod.Result result => readPathArgs rest result
        end
      else readPathArgs rest url
  end.

Definition handleIngestFileInput (args : list string) (w : Effects)
  : outcome (ResErr (option string) * Effects) :=
  match readPathArgs args "" with
  | Lod.Error e => Returned (failure e, w)
  | Lod.Result url =>
      if String.eqb url ""
      then Returned (failure "No path argument provided", w)
      else
        let w1 := write w ("[IngestFile] Reading ingest file from: " ++ url) None in
        let read := readIngestFile url in
        match error read with
        | Some e =>
            Returned (failure e,
                      write w1 ("[IngestFile] Failed to read ingest file: " ++
                                nl ++ tab ++ e) (Some FATAL))
        | None =>
            let w2 := write w1 "[IngestFile] Successfully read ingest file." None in
            let w3 := write w2 "[IngestFile] Verifying ingest file." None in
            verificationResult <- verifyIngestFile (result read) ;;
            match error verificationResult with
            | Some e =>
                Returned (failure e,
                          write w3 ("[IngestFile] Failed to verify ingest file: " ++
                                    nl ++ tab ++ e) (Some FATAL))
            | None =>
                processIngestFile (result verificationResult)
                  (write w3 "[IngestFile] Successfully verified ingest file." None)
            end
        end
  end.

(** The rows [printSettingsToLog] builds for the keys [keys] of the
    settings [fs]. *)
Fixpoint settingsRows (fs : list (string * jsval)) (keys : list string)
  : outcome string :=
  match keys with
  | [] => Returned ""
  | key :: rest =>
      row <- (if String.eqb key "dsn"
              then Returned (nl ++ tab ++ key ++ ": " ++ "{ xxxx xxxx xxxx xxxx }")
              else shown <- to_string (lookup key fs) ;;
                   Returned (nl ++ tab ++ key ++ ": " ++ shown)) ;;
      more <- settingsRows fs rest ;;
      Returned (row ++ more)
  end.

(** A key made of digits: [Object.keys] moves such keys to the
    front. *)
Fixpoint digits (s : string) : bool :=
  match s with
  | EmptyString => true
  | String c rest =>
      (Nat.leb 48 (nat_of_ascii c) && Nat.leb (nat_of_ascii c) 57) && digits rest
  end.

Definition numeric_key (key : string) : bool :=
  negb (String.eqb key "") && digits key.

(** [Object.keys] lists the keys of an object in the order of the
    document (the fields are taken to be in that order, each key once;
    an object with numeric keys, which are listed first, is not
    covered), and lists none for a number or a boolean. *)
Definition printSettingsToLog (settings : jsval) (w : Effects) : outcome Effects :=
  match settings with
  | JObj fs =>
      if existsb numeric_key (map fst fs) then Unmodelled
      else
        constructedStringTable <- settingsRows fs (map fst fs) ;;
        Returned (write w ("[if_cmd] Settings for file: " ++ constructedStringTable) None)
  | JUndef | JNull => Thrown
  | JBool _ | JNum _ => Returned (write w "[if_cmd] Settings for file: " None)
  | JStr _ | JArr _ _ => Unmodelled
  end.

End Runs.

End Command.

(** ** Collaborators to run the verifier on concrete documents *)

Module Sample.

(** Splits at every occurrence of [sep]; [acc] holds the piece read so
    far. *)
Fixpoint split_acc (sep : ascii) (acc : string) (s : string) : list string :=
  match s with
  | EmptyString => [acc]
  | String c s' =>
      if Ascii.eqb c sep
      then acc :: split_acc sep EmptyString s'
      else split_acc sep (acc ++ String c EmptyString) s'
  end.

Definition split (sep : ascii) (s : string) : list string :=
  split_acc sep EmptyString s.

(** Drops the blanks in front of a piece. *)
Fixpoint trim_left (s : string) : string :=
  match s with
  | String c s' => if Ascii.eqb c " "%char then trim_left s' else s
  | EmptyString => EmptyString
  end.

Definition number_of (s : string) : option Z :=
  option_map Z.of_int (NilZero.int_of_string s).

Definition dsn_object (host : string) (port : Z) (username password dbName sslMode : string)
  : jsval :=
  JObj [("host", JStr host); ("port", JNum port); ("username", JStr username);
        ("password", JStr password); ("dbName", JStr dbName);
        ("sslMode", JStr sslMode)].

(** Modelled from the spec: the reader of the compact DSN shorthand,
    [processing/cliInputProcessor.ts], is missing.  The shorthand is
    "host port, username password, dbName, sslMode" with the SSL mode
    optional; both encodings normalise to one canonical shape in which
    [sslMode] is present, "disable" when the shorthand leaves it out. *)
Definition readCompactDSN (s : string) : ResErr jsval :=
  match map trim_left (split ","%char s) with
  | [hp; up; db] | [hp; up; db; EmptyString] =>
      match split " "%char hp, split " "%char up with
      | [host; port], [username; password] =>
          match number_of port with
          | Some p => ok (dsn_object host p username password db "disable")
          | None => fail "The port of the DSN is not a number."
          end
      | _, _ => fail "The DSN is not of the form: host port, username password, dbName, sslMode"
      end
  | [hp; up; db; ssl] =>
      match split " "%char hp, split " "%char up with
      | [host; port], [username; password] =>
          match number_of port with
          | Some p => ok (dsn_object host p username password db ssl)
          | None => fail "The port of the DSN is not a number."
          end
      | _, _ => fail "The DSN is not of the form: host port, username password, dbName, sslMode"
      end
  | _ => fail "The DSN is not of the form: host port, username password, dbName, sslMode"
  end.

Fixpoint numbers (l : list string) : option (list jsval) :=
  match l with
  | [] => Some []
  | w :: l' =>
      match number_of w, numbers l' with
      | Some n, Some ns => Some (JNum n :: ns)
      | _, _ => None
      end
  end.

(** Modelled from the spec: the reader of the compact transform
    shorthand, [processing/cliInputProcessor.ts], is missing, and the
    spec fixes only that the shorthand is one delimited string of
    parameters in a fixed order, such as "rotate 90".  Here: the name of
    the operation, then its numeric parameters, separated by blanks. *)
Definition readCompactTransform (s : string) : ResErr jsval :=
  match split " "%char s with
  | operation :: parameters =>
      if String.eqb operation ""
      then fail "The transform names no operation."
      else
        match numbers parameters with
        | Some ns => ok (JObj [("operation", JStr operation); ("parameters", JArr ns [])])
        | None => fail "The parameters of the transform are not numbers."
        end
  | [] => fail "The transform names no operation."
  end.

Definition is_str (v : jsval) : bool :=
  match v with JStr _ => true | _ => false end.
Definition is_num (v : jsval) : bool :=
  match v with JNum _ => true | _ => false end.
Definition is_obj (v : jsval) : bool :=
  match v with JObj _ => true | _ => false end.
Definition is_arr (v : jsval) : bool :=
  match v with JArr _ _ => true | _ => false end.

(** Modelled from the spec: the type declarations of [ts/types.ts] and
    the conformance checker are missing.  A DSN has string fields
    [host], [username], [password], [dbName], a numeric [port] and an
    optional [sslMode]; a single asset carries a [single] object; a
    collection asset carries [name] and a [collection] object holding
    the [entries], each of which carries a [transform] in either
    encoding; a sub-file declaration carries [path] and its bounds. *)
Definition conforms (v : jsval) (d : TypeDeclaration) : option string :=
  match v with
  | JObj fs =>
      let has (p : jsval -> bool) (k : string) := p (lookup k fs) in
      let verdict (b : bool) (what : string) :=
        if b then None else Some ("Field " ++ what ++ " is missing or of the wrong type") in
      match d with
      | DBDSN_TYPEDECL =>
          if negb (has is_str "host") then Some "Field host is missing or of the wrong type"
          else if negb (has is_num "port") then Some "Field port is missing or of the wrong type"
          else if negb (has is_str "username") then Some "Field username is missing or of the wrong type"
          else if negb (has is_str "password") then Some "Field password is missing or of the wrong type"
          else if negb (has is_str "dbName") then Some "Field dbName is missing or of the wrong type"
          else verdict (has is_str "sslMode" || has nullish "sslMode") "sslMode"
      | TRANSFORM_DTO_TYPEDECL =>
          if negb (has is_str "operation")
          then Some "Field operation is missing or of the wrong type"
          else verdict (has is_arr "parameters") "parameters"
      | INGEST_FILE_COLLECTION_ASSET_TYPEDECL =>
          if negb (has is_str "name") then Some "Field name is missing or of the wrong type"
          else verdict (has is_obj "collection") "collection"
      | INGEST_FILE_COLLECTION_FIELD_TYPEDECL => verdict (has is_arr "entries") "entries"
      | INGEST_FILE_COLLECTION_ENTRY_TYPEDECL =>
          verdict (has is_str "transform" || has is_obj "transform") "transform"
      | INGEST_FILE_SINGLE_ASSET_TYPEDECL => verdict (has is_obj "single") "single"
      | INGEST_FILE_SINGLE_ASSET_FIELD_TYPEDECL => None
      | INGEST_FILE_SETTINGS_TYPEDECL => verdict (has is_str "path") "path"
      end
  | _ => Some "Not an object"
  end.

(** A string literal of a JSON text. *)
Definition q (s : string) : string := dq ++ s ++ dq.

Definition single_asset_text (id : string) : string :=
  "{" ++ q "assets" ++ ": [{" ++ q "type" ++ ": " ++ q "single" ++ ", " ++
  q "useCase" ++ ": " ++ q "icon" ++ ", " ++ q "id" ++ ": " ++ id ++ ", " ++
  q "single" ++ ": {}}]}".

Definition single_asset_document (id : Z) : jsval :=
  JObj [("assets",
         JArr [JObj [("type", JStr "single"); ("useCase", JStr "icon");
                     ("id", JNum id); ("single", JObj [])]] [])].

(** A runtime holding three files, whose texts are parsed by table:
    [icons.json] and [tiles.json] hold one single asset each, with the
    identifiers 11 and 5; [broken.json] is cut off after its first
    brace. *)
Definition files : list (string * string) :=
  [("icons.json", single_asset_text "11");
   ("tiles.json", single_asset_text "5");
   ("broken.json", "{")].

Definition documents : list (string * jsval) :=
  [(single_asset_text "11", single_asset_document 11);
   (single_asset_text "5", single_asset_document 5)].

Fixpoint assoc {A : Type} (k : string) (l : list (string * A)) : option A :=
  match l with
  | [] => None
  | (k', a) :: l' => if String.eqb k k' then Some a else assoc k l'
  end.

Definition runtime : SubFiles.Runtime :=
  {| SubFiles.file_exists := fun url =>
       match assoc url files with Some _ => true | None => false end;
     SubFiles.file_text := fun url =>
       match assoc url files with Some text => text | None => "" end;
     SubFiles.JSON_parse := fun text =>
       match assoc text documents with
       | Some document => inl document
       | None => inr "SyntaxError: JSON Parse error: Unexpected EOF"
       end;
     SubFiles.import_meta_dir := "/app/src" |}.

(** Image tools: every type is supported, and downscaling keeps a
    quarter of the bytes (both dimensions are halved); an image of fewer
    than four bytes cannot be downscaled. *)
Definition mime_type (s : string) : Lod.Received Lod.ImageMIMEType :=
  if String.eqb s "image/png" then Lod.Result Lod.PNG
  else if String.eqb s "image/jpeg" then Lod.Result Lod.JPEG
  else if String.eqb s "image/svg+xml" then Lod.Result Lod.SVG
  else Lod.Error ("No conforming MIME type for: " ++ s).

Definition quarter (b : Blob.t) : Lod.Received Blob.t :=
  if Nat.ltb (Blob.size b) 4
  then Lod.Error "Input image is too small"
  else Lod.Result {| Blob.bytes := firstn (Nat.div (Blob.size b) 4) (Blob.bytes b);
                     Blob.type := Blob.type b |}.

Definition image_tools : Lod.ImageTools :=
  {| Lod.findConformingMIMEType := mime_type;
     Lod.checkIfImageTypeIsSupported := fun _ => true;
     Lod.downscaleImage := quarter |}.

Definition checker : TypeChecker := {| conformsToType := conforms |}.
Definition cli : CliInputProcessor :=
  {| readCompactDSNNotationRaw := readCompactDSN;
     readCompactTransformNotationRaw := readCompactTransform |}.

End Sample.

(** ** Further collaborators, to run the command and the fetchers *)

Module SampleMore.
Import Command.


(** The JSON text of a document made of objects, arrays, strings
    without quotes, integers, booleans and [null]. *)
Fixpoint stringify (v : jsval) : string :=
  match v with
  | JUndef => "undefined"
  | JNull => "null"
  | JBool b => if b then "true" else "false"
  | JNum n => show_Z n
  | JStr s => Sample.q s
  | JArr es _ =>
      "[" ++ (fix items (l : list jsval) : string :=
                match l with
                | [] => ""
                | [x] => stringify x
                | x :: rest => stringify x ++ "," ++ items rest
                end) es ++ "]"
  | JObj fs =>
      "{" ++ (fix members (l : list (string * jsval)) : string :=
                match l with
                | [] => ""
                | [(k, x)] => Sample.q k ++ ":" ++ stringify x
                | (k, x) :: rest => Sample.q k ++ ":" ++ stringify x ++ "," ++ members rest
                end) fs ++ "}"
  end.

Definition shorthand : string := "localhost 5432, admin secret, assetsdb".

Definition icon : jsval :=
  JObj [("type", JStr "single"); ("useCase", JStr "icon"); ("id", JNum 7);
        ("single", JObj [])].

Definition collection (name : string) : jsval :=
  JObj [("type", JStr "collection"); ("useCase", JStr "icon"); ("name", JStr name);
        ("collection", JObj [("entries", JArr [JObj [("transform", JStr "rotate 90")]] [])])].

Definition manifest (assets : list jsval) : jsval :=
  JObj [("settings", JObj [("dsn", JStr shorthand)]); ("assets", JArr assets [])].

(** Three manifests: two collections around a single asset; the same
    with a collection the database refuses; one without [settings]. *)
Definition good_manifest : jsval := manifest [collection "tiles"; icon; collection "walls"].
Definition refused_manifest : jsval :=
  manifest [collection "tiles"; collection "refused"; collection "walls"].
Definition unsettled_manifest : jsval := JObj [("assets", JArr [icon] [])].

Definition manifests : list (string * jsval) :=
  [("good.json", good_manifest); ("refused.json", refused_manifest);
   ("unsettled.json", unsettled_manifest)].

Definition runtime : SubFiles.Runtime :=
  {| SubFiles.file_exists := fun url =>
       match Sample.assoc url manifests with Some _ => true | None => false end;
     SubFiles.file_text := fun url =>
       match Sample.assoc url manifests with
       | Some document => stringify document
       | None => ""
       end;
     SubFiles.JSON_parse := fun text =>
       match find (fun entry => String.eqb text (stringify (snd entry))) manifests with
       | Some entry => inl (snd entry)
       | None => inr "SyntaxError: JSON Parse error: Unexpected EOF"
       end;
     SubFiles.import_meta_dir := "/app/src" |}.

(** A database that accepts every connection and every collection but
    the one named "refused". *)
Definition database : Database :=
  {| connect := fun _ _ => None;
     establishCollection := fun _ request =>
       if is_string (lookup "name" match request with JObj fs => fs | _ => [] end) "refused"
       then fail "The collection was refused."
       else ok JNull |}.

(** The URL is what follows "path=". *)
Definition url_args : UrlArgs :=
  {| readUrlArg := fun arg => Lod.Result (String.substring 5 (String.length arg) arg) |}.

Definition no_effects : Effects := {| entries := []; calls := [] |}.

(** An environment for the fetchers: three addresses and two files. *)
Definition png_bytes : list Byte.byte := [Byte.x89; Byte.x50; Byte.x4e; Byte.x47].

Definition response (type : string) (content_type : option string) : BlobFetcher.Response :=
  {| BlobFetcher.ok := true;
     BlobFetcher.status := 200;
     BlobFetcher.headers_has := fun name =>
       match content_type with
       | Some _ => String.eqb name "content-type"
       | None => false
       end;
     BlobFetcher.headers_get := fun _ =>
       match content_type with Some t => t | None => "" end;
     BlobFetcher.body := Lod.Result {| Blob.bytes := png_bytes; Blob.type := type |} |}.

Definition environment : BlobFetcher.Environment :=
  {| BlobFetcher.fetch := fun url =>
       if String.eqb url "http://cdn.example/icon" then Lod.Result (response "" (Some "image/png"))
       else if String.eqb url "http://cdn.example/tile.png" then Lod.Result (response "" None)
       else if String.eqb url "http://cdn.example/typed" then Lod.Result (response "image/png" None)
       else Lod.Error "Unable to connect";
     BlobFetcher.Bun_file := fun url =>
       if String.eqb url "logo.png"
       then Some {| Blob.bytes := png_bytes; Blob.type := "image/png" |}
       else if String.eqb url "photo.jpg"
       then Some {| Blob.bytes := png_bytes; Blob.type := "image/jpg" |}
       else None;
     BlobFetcher.arrayBuffer_resolves := fun _ => true;
     BlobFetcher.constructed_type := fun t => t;
     BlobFetcher.findConformingMIMEType := fun t =>
       if String.eqb t "image/png" then Lod.Result "image/png"
       else if String.eqb t "image/jpg" then Lod.Result "image/jpeg"
       else if String.eqb t "image/jpeg" then Lod.Result "image/jpeg"
       else Lod.Error ("No conforming MIME type for: " ++ t) |}.

End SampleMore.

(* ================================================================== *)
(** * Part II: properties *)
(* ================================================================== *)

Module JsFacts.

Lemma lookup_store_same (k : string) (v : jsval) (fs : list (string * jsval)) :
  lookup k (store k v fs) = v.
Proof.
  induction fs as [|[k' v'] fs IH]; simpl.
  - now rewrite String.eqb_refl.
  - destruct (String.eqb k k') eqn:E; simpl.
    + now rewrite String.eqb_refl.
    + now rewrite E.
Qed.

Lemma lookup_store_other (k k' : string) (v : jsval) (fs : list (string * jsval)) :
  k' <> k -> lookup k' (store k v fs) = lookup k' fs.
Proof.
  intros Hne. induction fs as [|[k0 v0] fs IH]; simpl.
  - destruct (String.eqb_spec k' k); [contradiction | reflexivity].
  - destruct (String.eqb_spec k k0) as [->|Hk]; simpl.
    + destruct (String.eqb_spec k' k0); [contradiction | reflexivity].
    + destruct (String.eqb k' k0); [reflexivity | exact IH].
Qed.

End JsFacts.

Example sample_dsn_scenario :
  Sample.readCompactDSN "localhost 5432, admin secret, assetsdb, disable"
  = ok (Sample.dsn_object "localhost" 5432 "admin" "secret" "assetsdb" "disable").
Proof. vm_compute. reflexivity. Qed.

Module IngestFileFacts.
Import IngestFile JsFacts.

#[local] Arguments verifyAssets : simpl never.
#[local] Arguments validateEntries : simpl never.

(** *** Documents used as concrete inputs *)

(** [{"settings": {"dsn": 5}}]: no [assets], and a DSN that is neither a
    string nor an object. *)
Definition manifest_without_assets : jsval :=
  JObj [("settings", JObj [("dsn", JNum 5)])].

Definition canonical_dsn : jsval :=
  Sample.dsn_object "localhost" 5432 "admin" "secret" "assetsdb" "disable".

(** The DSN of scenario 1 without its [sslMode]. *)
Definition dsn_without_sslMode : list (string * jsval) :=
  [("host", JStr "localhost"); ("port", JNum 5432); ("username", JStr "admin");
   ("password", JStr "secret"); ("dbName", JStr "assetsdb")].

Section Facts.
Context {TC : TypeChecker} {CLI : CliInputProcessor}.

(** A DSN that is not [null] or [undefined] is normalised without a
    throw. *)
Lemma assureUniformDSN_returns (dsn : jsval) :
  nullish dsn = false -> exists r, assureUniformDSN dsn = Returned r.
Proof.
  intros Hn. destruct dsn; simpl in *; try discriminate; eauto.
  - destruct (error (readCompactDSNNotationRaw s)); eauto.
  - destruct (conformsToType _ _); eauto.
    simpl. destruct (nullish (lookup "sslMode" props)); simpl; eauto.
  - destruct (conformsToType _ _); eauto.
    simpl. destruct (nullish (lookup "sslMode" fields)); simpl; eauto.
Qed.

(** A property that reads as neither [null] nor [undefined] belongs to
    an object or an array, which can be written to. *)
Lemma get_prop_present (v x : jsval) (k : string) :
  get_prop v k = Returned x -> nullish x = false ->
  forall y, exists v', set_prop v k y = Returned v' /\
                       forall k', k' <> k -> get_prop v' k' = get_prop v k'.
Proof.
  intros Hg Hx y. destruct v; simpl in *; try discriminate;
    try (injection Hg as <-; discriminate).
  - eexists; split; [reflexivity|]. intros k' Hk. simpl.
    now rewrite lookup_store_other.
  - eexists; split; [reflexivity|]. intros k' Hk. simpl.
    now rewrite lookup_store_other.
Qed.

(** C1 (as the code has it).  For every parsed document other than
    [null] in which [settings] or [assets] is absent or null,
    [verifyIngestFile] returns an error and the [null] result.  The error
    names [settings] when [settings] is the missing field.  When only
    [assets] is missing the checks of [settings.dsn] come first: the
    error is the missing-dsn error, else the error of normalising the
    DSN, and names [assets] only when the DSN normalises. *)
Theorem verifyIngestFile_missing_root_field (rawFile settings assets : jsval) :
  get_prop rawFile "settings" = Returned settings ->
  get_prop rawFile "assets" = Returned assets ->
  nullish settings = true \/ nullish assets = true ->
  exists e,
    verifyIngestFile rawFile = Returned (fail e) /\
    (nullish settings = true ->
     e = "No settings field and corresponding object found in ingest file.") /\
    (nullish settings = false ->
     exists dsn, get_prop settings "dsn" = Returned dsn /\
       (nullish dsn = true ->
        e = "No dsn field found in ingest file under settings.") /\
       (nullish dsn = false ->
        exists r, assureUniformDSN dsn = Returned r /\
          match error r with
          | Some dsnError => e = dsnError
          | None => e = "No assets field and corresponding object found in ingest file."
          end)).
Proof.
  intros Hs Ha Hmiss. unfold verifyIngestFile. rewrite Hs. simpl.
  destruct (nullish settings) eqn:Hns.
  - eexists; split; [reflexivity|]. split; [reflexivity | discriminate].
  - destruct Hmiss as [Hmiss|Hna]; [discriminate|].
    assert (exists dsn, get_prop settings "dsn" = Returned dsn) as [dsn Hd].
    { destruct settings; simpl in *; try discriminate; eauto. }
    rewrite Hd. simpl. destruct (nullish dsn) eqn:Hnd.
    + eexists; split; [reflexivity|]. split; [discriminate|].
      intros _. exists dsn. split; [reflexivity|].
      split; [reflexivity | congruence].
    + destruct (assureUniformDSN_returns dsn Hnd) as [r Hr]. rewrite Hr. simpl.
      destruct (error r) as [dsnError|] eqn:Her.
      * eexists; split; [reflexivity|]. split; [discriminate|].
        intros _. exists dsn. split; [reflexivity|]. split; [congruence|].
        intros _. exists r. now rewrite Her.
      * destruct (get_prop_present _ _ _ Hd Hnd (result r)) as [settings' [Hset _]].
        rewrite Hset. simpl.
        destruct (get_prop_present _ _ _ Hs Hns settings') as [rawFile' [Hset' Hother]].
        rewrite Hset'. simpl.
        rewrite (Hother "assets") by discriminate. rewrite Ha. simpl. rewrite Hna.
        eexists; split; [reflexivity|]. split; [discriminate|].
        intros _. exists dsn. split; [reflexivity|]. split; [congruence|].
        intros _. exists r. now rewrite Her.
Qed.

End Facts.

(** The theorem at [{"settings": {"dsn": 5}}]. *)
Lemma verifyIngestFile_missing_root_field_witness :
  exists e,
    @verifyIngestFile Sample.checker Sample.cli manifest_without_assets
    = Returned (fail e).
Proof.
  destruct (@verifyIngestFile_missing_root_field Sample.checker Sample.cli
              manifest_without_assets
              (JObj [("dsn", JNum 5)]) JUndef eq_refl eq_refl
              (or_intror eq_refl)) as [e [He _]].
  exists e. exact He.
Defined.

(** C1 as stated fails: in [{"settings": {"dsn": 5}}] the field
    [assets] is absent, and the error returned is the one about the shape
    of the DSN, which names neither [assets] nor [settings]. *)
Lemma verifyIngestFile_missing_assets_not_named :
  ~ (exists e,
       @verifyIngestFile Sample.checker Sample.cli manifest_without_assets
       = Returned (fail e) /\
       contains "assets" e = true).
Proof.
  intros [e [He Hc]]. vm_compute in He. injection He as <-.
  vm_compute in Hc. discriminate.
Qed.

Section DsnFacts.
Context {TC : TypeChecker} {CLI : CliInputProcessor}.

(** C2 (as the code has it).  A DSN object that passes the conformance
    check is normalised successfully; in the result [sslMode] is present,
    it is "disable" when the input's [sslMode] was absent or null, the
    result is the input itself otherwise, and every other field is
    unchanged. *)
Theorem assureUniformDSN_object (fs : list (string * jsval)) :
  conformsToType (JObj fs) DBDSN_TYPEDECL = None ->
  exists fs',
    assureUniformDSN (JObj fs) = Returned (ok (JObj fs')) /\
    nullish (lookup "sslMode" fs') = false /\
    (nullish (lookup "sslMode" fs) = true -> lookup "sslMode" fs' = JStr "disable") /\
    (nullish (lookup "sslMode" fs) = false -> fs' = fs) /\
    (forall k, k <> "sslMode" -> lookup k fs' = lookup k fs).
Proof.
  intros Hc. unfold assureUniformDSN. rewrite Hc. simpl.
  destruct (nullish (lookup "sslMode" fs)) eqn:Hn; simpl.
  - exists (store "sslMode" (JStr "disable") fs).
    split; [reflexivity|]. rewrite lookup_store_same.
    repeat split; try reflexivity; try discriminate.
    intros k Hk. now apply lookup_store_other.
  - exists fs. repeat split; try reflexivity; try assumption; discriminate.
Qed.

(** What the spec promises of the two collaborators of the normaliser:
    the shorthand reader yields the canonical object, conforming and
    with [sslMode] present ... *)
Definition reader_yields_canonical : Prop :=
  forall s, error (readCompactDSNNotationRaw s) = None ->
    exists fs, result (readCompactDSNNotationRaw s) = JObj fs /\
               conformsToType (JObj fs) DBDSN_TYPEDECL = None /\
               nullish (lookup "sslMode" fs) = false.

(** ... and [sslMode] is optional in the DSN declaration: a conforming
    value still conforms once the default is filled in. *)
Definition default_conforms : Prop :=
  forall v v' x,
    conformsToType v DBDSN_TYPEDECL = None ->
    get_prop v "sslMode" = Returned x -> nullish x = true ->
    set_prop v "sslMode" (JStr "disable") = Returned v' ->
    conformsToType v' DBDSN_TYPEDECL = None.

(** C7.  Normalising the canonical value a successful normalisation
    returned succeeds and returns that value again, for both
    encodings. *)
Theorem assureUniformDSN_idempotent (dsn : jsval) (r : ResErr jsval) :
  reader_yields_canonical -> default_conforms ->
  assureUniformDSN dsn = Returned r -> error r = None ->
  assureUniformDSN (result r) = Returned r.
Proof.
  intros Hreader Hdefault Hrun Hok.
  assert (Hcomposite : forall v, typeof_object v = true -> v <> JNull ->
            assureUniformDSN v = Returned r -> assureUniformDSN (result r) = Returned r).
  { intros v Hobj Hnn Hv.
    assert (Hshape : assureUniformDSN v =
              match conformsToType v DBDSN_TYPEDECL with
              | Some typeError =>
                  Returned (fail ("DSN object does not conform to expected type:"
                                  ++ nl ++ tab ++ typeError))
              | None =>
                  sslMode <- get_prop v "sslMode" ;;
                  if nullish sslMode
                  then v' <- set_prop v "sslMode" (JStr "disable") ;; Returned (ok v')
                  else Returned (ok v)
              end).
    { destruct v; try discriminate; reflexivity. }
    rewrite Hshape in Hv.
    destruct (conformsToType v DBDSN_TYPEDECL) eqn:Hc.
    { injection Hv as <-. discriminate. }
    destruct (get_prop v "sslMode") as [x| |] eqn:Hg; try discriminate.
    simpl in Hv. destruct (nullish x) eqn:Hx.
    - destruct (set_prop v "sslMode" (JStr "disable")) as [v'| |] eqn:Hs; try discriminate.
      simpl in Hv. injection Hv as <-. simpl.
      pose proof (Hdefault _ _ _ Hc Hg Hx Hs) as Hc'.
      destruct v; try discriminate; simpl in Hs; injection Hs as <-; simpl;
        simpl in Hc'; rewrite Hc'; simpl; rewrite lookup_store_same; reflexivity.
    - injection Hv as <-. simpl. rewrite Hshape. simpl. now rewrite Hx. }
  destruct dsn as [| | | |s|es ps|fs];
    try (simpl in Hrun; injection Hrun as <-; simpl in Hok; discriminate).
  - simpl in Hrun. destruct (conformsToType JNull DBDSN_TYPEDECL); [|discriminate].
    injection Hrun as <-. discriminate.
  - simpl in Hrun. destruct (error (readCompactDSNNotationRaw s)) eqn:He.
    + injection Hrun as <-. discriminate.
    + injection Hrun as <-. simpl.
      destruct (Hreader s He) as [fs [Hres [Hc Hn]]].
      rewrite Hres. simpl. rewrite Hc. simpl. now rewrite Hn.
  - apply (Hcomposite (JArr es ps) eq_refl); [discriminate | exact Hrun].
  - apply (Hcomposite (JObj fs) eq_refl); [discriminate | exact Hrun].
Qed.

(** Whenever [verifyIngestFile] does return, exactly one side of the
    pair is [null]. *)
Lemma verifyIngestFile_one_side (rawFile : jsval) (r : ResErr jsval) :
  verifyIngestFile rawFile = Returned r ->
  (error r = None /\ result r <> JNull) \/ (exists e, r = fail e).
Proof.
  unfold verifyIngestFile.
  destruct (get_prop rawFile "settings") as [settings| |]; try discriminate.
  simpl. destruct (nullish settings).
  { simpl. intros [= E]; subst r. right. eauto. }
  destruct (get_prop settings "dsn") as [dsn| |]; try discriminate.
  simpl. destruct (nullish dsn).
  { simpl. intros [= E]; subst r. right. eauto. }
  destruct (assureUniformDSN dsn) as [a| |]; try discriminate.
  simpl. destruct (error a).
  { simpl. intros [= E]; subst r. right. eauto. }
  destruct (set_prop settings "dsn" (result a)) as [settings'| |]; try discriminate.
  simpl.
  destruct (set_prop rawFile "settings" settings') as [rawFile'| |]; try discriminate.
  simpl.
  destruct (get_prop rawFile' "assets") as [assets| |]; try discriminate.
  simpl. destruct (nullish assets).
  { simpl. intros [= E]; subst r. right. eauto. }
  destruct assets as [| | | | |[|a0 es] ps|]; try (simpl; intros [= E]; subst r; right; eauto).
  simpl.
  destruct (verifyAssets 0 (a0 :: es)) as [[es' err]| |]; try discriminate.
  simpl. destruct err.
  { simpl. intros [= E]; subst r. right. eauto. }
  destruct (set_prop rawFile' "assets" (JArr es' ps)) as [rawFile''| |] eqn:Hfin;
    try discriminate.
  simpl. intros [= E]; subst r. left. split; [reflexivity|].
  destruct rawFile'; simpl in Hfin; try discriminate; injection Hfin as <-; discriminate.
Qed.

End DsnFacts.

Section AssetFacts.
Context {TC : TypeChecker} {CLI : CliInputProcessor}.

(** An entry whose [type] is present and is not a known discriminant. *)
Definition unknown_type (asset : jsval) : Prop :=
  exists t, get_prop asset "type" = Returned t /\ nullish t = false /\
            is_string t "single" = false /\ is_string t "collection" = false.

(** The checks of [verifyIngestFile] in front of the loop over the
    assets all pass: [settings] and [settings.dsn] are present and the
    DSN normalises. *)
Definition settings_pass (rawFile : jsval) : Prop :=
  exists settings dsn d,
    get_prop rawFile "settings" = Returned settings /\ nullish settings = false /\
    get_prop settings "dsn" = Returned dsn /\ nullish dsn = false /\
    assureUniformDSN dsn = Returned d /\ error d = None.

Lemma set_prop_get_other (v v' x : jsval) (k k' : string) :
  set_prop v k x = Returned v' -> k' <> k -> get_prop v' k' = get_prop v k'.
Proof.
  intros Hs Hk. destruct v; simpl in Hs; try discriminate;
    injection Hs as <-; simpl; now rewrite lookup_store_other.
Qed.

Lemma verifyAssets_cons (i : nat) (asset : jsval) (rest : list jsval) :
  verifyAssets i (asset :: rest) =
  (type <- get_prop asset "type" ;;
   if nullish type
   then Returned (asset :: rest, Some ("No type field found in asset nr:" ++ show_nat i))
   else
     useCase <- get_prop asset "useCase" ;;
     if nullish useCase
     then Returned (asset :: rest, Some ("No useCase field found in asset nr:" ++ show_nat i))
     else if is_string type "single"
     then
       err <- validateSingleAssetEntry asset i ;;
       match err with
       | Some e => Returned (asset :: rest, Some e)
       | None => r <- verifyAssets (S i) rest ;; Returned (asset :: fst r, snd r)
       end
     else if is_string type "collection"
     then
       c <- validateCollectionAssetEntry asset i ;;
       match snd c with
       | Some e => Returned (fst c :: rest, Some e)
       | None => r <- verifyAssets (S i) rest ;; Returned (fst c :: fst r, snd r)
       end
     else Returned (asset :: rest, Some ("Unknown asset type in asset nr:" ++ show_nat i))).
Proof. reflexivity. Qed.

(** Once the loop is through the entries [pre] without an error, it goes
    on with the rest, counting on from their number. *)
Lemma verifyAssets_app (pre : list jsval) :
  forall i pre' rest,
    verifyAssets i pre = Returned (pre', None) ->
    verifyAssets i (pre ++ rest)
    = (r <- verifyAssets (i + List.length pre) rest ;;
       Returned ((pre' ++ fst r)%list, snd r)).
Proof.
  induction pre as [|p pre IH]; intros i pre' rest Hpre; simpl app.
  - injection Hpre as <-. rewrite Nat.add_0_r. simpl.
    now destruct (verifyAssets i rest) as [[es err]| |].
  - rewrite verifyAssets_cons in Hpre |- *.
    destruct (get_prop p "type") as [t| |]; try discriminate. simpl in *.
    destruct (nullish t); [discriminate|].
    destruct (get_prop p "useCase") as [u| |]; try discriminate. simpl in *.
    destruct (nullish u); [discriminate|].
    replace (i + S (List.length pre)) with (S i + List.length pre) by lia.
    destruct (is_string t "single").
    + destruct (validateSingleAssetEntry p i) as [[e|]| |]; try discriminate; simpl in *.
      destruct (verifyAssets (S i) pre) as [[es1 err1]| |] eqn:Hrec; try discriminate.
      simpl in Hpre. injection Hpre as <- ->. rewrite (IH _ _ rest Hrec). simpl.
      now destruct (verifyAssets (S (i + List.length pre)) rest) as [[es err]| |].
    + destruct (is_string t "collection"); [|discriminate].
      destruct (validateCollectionAssetEntry p i) as [[p' [e|]]| |];
        try discriminate; simpl in *.
      destruct (verifyAssets (S i) pre) as [[es1 err1]| |] eqn:Hrec; try discriminate.
      simpl in Hpre. injection Hpre as <- ->. rewrite (IH _ _ rest Hrec). simpl.
      now destruct (verifyAssets (S (i + List.length pre)) rest) as [[es err]| |].
Qed.

(** The loop never gets past an entry of unknown type: whatever comes
    before it, the loop does not end without an error. *)
Lemma verifyAssets_unknown_type_fails (pre : list jsval) :
  forall i asset post es' err,
    unknown_type asset ->
    verifyAssets i (pre ++ asset :: post) = Returned (es', err) ->
    err <> None.
Proof.
  induction pre as [|p pre IH]; intros i asset post es' err Hu; simpl app;
    rewrite verifyAssets_cons.
  - destruct Hu as [t [Ht [Hn [Hs Hc]]]]. rewrite Ht. simpl. rewrite Hn.
    destruct (get_prop asset "useCase") as [u| |]; try discriminate. simpl.
    destruct (nullish u); [intros [= _ <-]; discriminate|].
    rewrite Hs, Hc. intros [= _ <-]. discriminate.
  - destruct (get_prop p "type") as [t| |]; try discriminate. simpl.
    destruct (nullish t); [intros [= _ <-]; discriminate|].
    destruct (get_prop p "useCase") as [u| |]; try discriminate. simpl.
    destruct (nullish u); [intros [= _ <-]; discriminate|].
    destruct (is_string t "single").
    + destruct (validateSingleAssetEntry p i) as [[e|]| |]; try discriminate; simpl.
      * intros [= _ <-]. discriminate.
      * destruct (verifyAssets (S i) (pre ++ asset :: post)%list) as [[es1 err1]| |] eqn:Hrec;
          try discriminate.
        simpl. intros [= _ <-]. exact (IH _ _ _ _ _ Hu Hrec).
    + destruct (is_string t "collection"); [|intros [= _ <-]; discriminate].
      destruct (validateCollectionAssetEntry p i) as [[p' [e|]]| |]; try discriminate; simpl.
      * intros [= _ <-]. discriminate.
      * destruct (verifyAssets (S i) (pre ++ asset :: post)%list) as [[es1 err1]| |] eqn:Hrec;
          try discriminate.
        simpl. intros [= _ <-]. exact (IH _ _ _ _ _ Hu Hrec).
Qed.

(** What [verifyIngestFile] returns when the checks in front of the loop
    pass and the loop ends with an error, or throws. *)
Lemma verifyIngestFile_assets (rawFile : jsval) (assets : list jsval)
  (ps : list (string * jsval)) :
  settings_pass rawFile ->
  get_prop rawFile "assets" = Returned (JArr assets ps) ->
  assets <> [] ->
  (forall assets' e, verifyAssets 0 assets = Returned (assets', Some e) ->
                     verifyIngestFile rawFile = Returned (fail e)) /\
  (verifyAssets 0 assets = Thrown -> verifyIngestFile rawFile = Thrown).
Proof.
  intros [settings [dsn [d [Hs [Hns [Hd [Hnd [Hdsn Hok]]]]]]]] Ha Hne.
  assert (Hrun : verifyIngestFile rawFile =
                 (r <- verifyAssets 0 assets ;;
                  match snd r with
                  | Some e => Returned (fail e)
                  | None =>
                      rawFile' <- (settings' <- set_prop settings "dsn" (result d) ;;
                                   set_prop rawFile "settings" settings') ;;
                      rawFile'' <- set_prop rawFile' "assets" (JArr (fst r) ps) ;;
                      Returned (ok rawFile'')
                  end)).
  { unfold verifyIngestFile. rewrite Hs. simpl. rewrite Hns, Hd. simpl.
    rewrite Hnd, Hdsn. simpl. rewrite Hok.
    destruct (get_prop_present _ _ _ Hd Hnd (result d)) as [settings' [Hset _]].
    rewrite Hset. simpl.
    destruct (get_prop_present _ _ _ Hs Hns settings') as [rawFile' [Hset' Hother]].
    rewrite Hset'. simpl. rewrite (Hother "assets") by discriminate.
    rewrite Ha. simpl. destruct assets as [|a es]; [contradiction|]. reflexivity. }
  rewrite Hrun. split.
  - intros assets' e ->. reflexivity.
  - intros ->. reflexivity.
Qed.

(** C5 (as the code has it).  A manifest whose [assets] hold an entry of
    unknown type is never verified: whenever [verifyIngestFile] returns,
    it returns an error.  When the checks of the settings and the
    entries before it pass, the entry is reported by its index: with the
    unknown-type error if it carries a [useCase], with the error of the
    missing [useCase] if it does not. *)
Theorem verifyIngestFile_unknown_type
  (rawFile asset : jsval) (pre post : list jsval) (ps : list (string * jsval)) :
  get_prop rawFile "assets" = Returned (JArr (pre ++ asset :: post) ps) ->
  unknown_type asset ->
  (forall r, verifyIngestFile rawFile = Returned r -> exists e, r = fail e) /\
  (forall pre' u,
     settings_pass rawFile ->
     verifyAssets 0 pre = Returned (pre', None) ->
     get_prop asset "useCase" = Returned u ->
     verifyIngestFile rawFile
     = Returned (fail ((if nullish u
                        then "No useCase field found in asset nr:"
                        else "Unknown asset type in asset nr:")
                       ++ show_nat (List.length pre)))).
Proof.
  intros Ha Hu. split.
  - intros r. unfold verifyIngestFile.
    destruct (get_prop rawFile "settings") as [settings| |]; try discriminate.
    simpl. destruct (nullish settings); [intros [= <-]; eauto|].
    destruct (get_prop settings "dsn") as [dsn| |]; try discriminate.
    simpl. destruct (nullish dsn); [intros [= <-]; eauto|].
    destruct (assureUniformDSN dsn) as [d| |]; try discriminate.
    simpl. destruct (error d); [intros [= <-]; eauto|].
    destruct (set_prop settings "dsn" (result d)) as [settings'| |]; try discriminate.
    simpl.
    destruct (set_prop rawFile "settings" settings') as [rawFile'| |] eqn:Hraw;
      try discriminate.
    simpl. rewrite (set_prop_get_other _ _ _ _ "assets" Hraw) by discriminate.
    rewrite Ha. simpl.
    destruct (pre ++ asset :: post)%list as [|a0 es] eqn:Hes; [intros [= <-]; eauto|].
    destruct (verifyAssets 0 (a0 :: es)) as [[es' err]| |] eqn:Hrun; try discriminate.
    simpl. destruct err as [e|]; [intros [= <-]; eauto|].
    rewrite <- Hes in Hrun. now destruct (verifyAssets_unknown_type_fails _ _ _ _ _ _ Hu Hrun).
  - intros pre' u Hpass Hpre Hg.
    assert (Hne : (pre ++ asset :: post)%list <> []) by (destruct pre; discriminate).
    destruct (verifyIngestFile_assets _ _ _ Hpass Ha Hne) as [Herr _].
    apply (Herr (pre' ++ asset :: post)%list).
    rewrite (verifyAssets_app _ _ _ _ Hpre), verifyAssets_cons. simpl.
    destruct Hu as [t [Ht [Hnt [Hs Hc]]]]. rewrite Ht. simpl. rewrite Hnt, Hg. simpl.
    destruct (nullish u); [reflexivity|]. now rewrite Hs, Hc.
Qed.

(** C9 (failing inputs).  Reading [settings] off the document [null]
    throws, and so does reading [type] off a [null] among the assets
    once the checks in front of it have passed: no result/error pair is
    returned. *)
Theorem verifyIngestFile_throws :
  verifyIngestFile JNull = Thrown /\
  (forall rawFile pre pre' post ps,
     settings_pass rawFile ->
     get_prop rawFile "assets" = Returned (JArr (pre ++ JNull :: post) ps) ->
     verifyAssets 0 pre = Returned (pre', None) ->
     verifyIngestFile rawFile = Thrown).
Proof.
  split; [reflexivity|].
  intros rawFile pre pre' post ps Hpass Ha Hpre.
  assert (Hne : (pre ++ JNull :: post)%list <> []) by (destruct pre; discriminate).
  destruct (verifyIngestFile_assets _ _ _ Hpass Ha Hne) as [_ Hthrow].
  apply Hthrow. now rewrite (verifyAssets_app _ _ _ _ Hpre), verifyAssets_cons.
Qed.

End AssetFacts.

Section CollectionFacts.
Context {TC : TypeChecker} {CLI : CliInputProcessor}.

Lemma validateEntries_cons (entryNum i : nat) (source : jsval) (rest : list jsval) :
  validateEntries entryNum i (source :: rest) =
  match conformsToType source INGEST_FILE_COLLECTION_ENTRY_TYPEDECL with
  | Some sourceTypeError =>
      Returned (source :: rest,
                Some ("Type error in source nr: " ++ show_nat i ++
                      " in collection asset nr: " ++ show_nat entryNum ++
                      ": " ++ sourceTypeError))
  | None =>
      transform <- get_prop source "transform" ;;
      match error (assureUniformTransform transform) with
      | Some e => Returned (source :: rest, Some e)
      | None =>
          source' <- set_prop source "transform" (result (assureUniformTransform transform)) ;;
          r <- validateEntries entryNum (S i) rest ;;
          Returned (source' :: fst r, snd r)
      end
  end.
Proof. reflexivity. Qed.

(** The entries after the first failing one are left as they were, and
    the error does not depend on them.  [failing] is what the loop body
    returns at the failing entry. *)
Lemma validateEntries_stops (pre : list jsval) :
  forall entryNum i pre' source post e,
    validateEntries entryNum i pre = Returned (pre', None) ->
    (forall rest, validateEntries entryNum (i + List.length pre) (source :: rest)
                  = Returned (source :: rest, Some e)) ->
    validateEntries entryNum i (pre ++ source :: post)
    = Returned ((pre' ++ source :: post)%list, Some e).
Proof.
  induction pre as [|p pre IH]; intros entryNum i pre' source post e Hpre Hfail; simpl app.
  - injection Hpre as <-. rewrite Nat.add_0_r in Hfail. apply Hfail.
  - rewrite validateEntries_cons in Hpre |- *.
    destruct (conformsToType p INGEST_FILE_COLLECTION_ENTRY_TYPEDECL); [discriminate|].
    destruct (get_prop p "transform") as [t| |]; try discriminate. simpl in *.
    destruct (error (assureUniformTransform t)); [discriminate|].
    destruct (set_prop p "transform" _) as [p'| |]; try discriminate. simpl in *.
    destruct (validateEntries entryNum (S i) pre) as [[es1 err1]| |] eqn:Hrec;
      try discriminate.
    simpl in Hpre. injection Hpre as <- ->.
    rewrite (IH _ _ _ source post e Hrec).
    + reflexivity.
    + intros rest. replace (S i + List.length pre) with (i + S (List.length pre)) by lia.
      apply Hfail.
Qed.

(** C6 (what the code does).  When the entries before [source] pass and
    the transform of [source] fails to normalise, the loop stops there:
    the entries after it are returned untouched, and the error returned
    is the normaliser's own error [e], whatever the index of the asset
    and of the entry. *)
Theorem validateCollectionAssetEntry_transform_error
  (fs cs ps : list (string * jsval)) (pre pre' post : list jsval)
  (source t : jsval) (e : string) (entryNum : nat) :
  conformsToType (JObj fs) INGEST_FILE_COLLECTION_ASSET_TYPEDECL = None ->
  lookup "collection" fs = JObj cs ->
  conformsToType (JObj cs) INGEST_FILE_COLLECTION_FIELD_TYPEDECL = None ->
  lookup "entries" cs = JArr (pre ++ source :: post) ps ->
  validateEntries entryNum 0 pre = Returned (pre', None) ->
  conformsToType source INGEST_FILE_COLLECTION_ENTRY_TYPEDECL = None ->
  get_prop source "transform" = Returned t ->
  error (assureUniformTransform t) = Some e ->
  validateCollectionAssetEntry (JObj fs) entryNum
  = Returned (JObj (store "collection"
                      (JObj (store "entries" (JArr (pre' ++ source :: post) ps) cs)) fs),
              Some e).
Proof.
  intros Hasset Hcoll Hfield Hentries Hpre Hsource Ht He.
  unfold validateCollectionAssetEntry. rewrite Hasset. simpl. rewrite Hcoll, Hfield.
  rewrite Hentries. unfold validateEntriesOf.
  rewrite (validateEntries_stops pre entryNum 0 pre' source post e Hpre).
  - reflexivity.
  - intros rest. rewrite validateEntries_cons, Hsource, Ht. simpl. now rewrite He.
Qed.

End CollectionFacts.

(** *** The properties at concrete documents *)

Definition verify := @verifyIngestFile Sample.checker Sample.cli.

(** C2 as stated fails: the canonical DSN of scenario 1 passes the
    conformance check and is returned as it is, so its [sslMode] is
    "disable" although the input's [sslMode] was present. *)
Lemma assureUniformDSN_disable_not_only_default :
  Sample.conforms canonical_dsn DBDSN_TYPEDECL = None /\
  ~ (forall fs',
       @assureUniformDSN Sample.checker Sample.cli canonical_dsn
       = Returned (ok (JObj fs')) ->
       (lookup "sslMode" fs' = JStr "disable" <->
        exists fs, canonical_dsn = JObj fs /\ nullish (lookup "sslMode" fs) = true)).
Proof.
  split; [reflexivity|]. intros H.
  destruct (H _ eq_refl) as [Hto _].
  destruct (Hto eq_refl) as [fs [Hfs Hn]].
  injection Hfs as <-. discriminate.
Qed.

(** The theorem on a DSN object without [sslMode]. *)
Lemma assureUniformDSN_object_witness :
  exists fs',
    @assureUniformDSN Sample.checker Sample.cli (JObj dsn_without_sslMode)
    = Returned (ok (JObj fs')) /\
    lookup "sslMode" fs' = JStr "disable".
Proof.
  destruct (@assureUniformDSN_object Sample.checker Sample.cli dsn_without_sslMode eq_refl)
    as [fs' [Hrun [_ [Hdefault _]]]].
  exists fs'. split; [exact Hrun | exact (Hdefault eq_refl)].
Defined.

(** The spec-modelled collaborators meet the two contracts. *)
Lemma sample_reader_yields_canonical :
  @reader_yields_canonical Sample.checker Sample.cli.
Proof.
  intros s. simpl. unfold Sample.readCompactDSN.
  repeat match goal with
         | |- context [match ?x with _ => _ end] => destruct x
         end;
    simpl; try discriminate; intros _;
    eexists; (split; [reflexivity | split; reflexivity]).
Qed.

Lemma sample_default_conforms : @default_conforms Sample.checker.
Proof.
  intros v v' x Hc Hg Hx Hs. destruct v as [| | | | | |fs]; try discriminate.
  simpl in Hs. injection Hs as <-. simpl in *.
  rewrite !lookup_store_other by discriminate. rewrite lookup_store_same. simpl.
  repeat match type of Hc with
         | context [if negb ?b then _ else _] => destruct b; simpl in Hc; try discriminate
         end.
  reflexivity.
Qed.

(** The theorem on the shorthand of scenario 1 with the SSL mode left
    out. *)
Lemma assureUniformDSN_idempotent_witness :
  @assureUniformDSN Sample.checker Sample.cli (JStr "localhost 5432, admin secret, assetsdb")
  = Returned (ok canonical_dsn) /\
  @assureUniformDSN Sample.checker Sample.cli canonical_dsn = Returned (ok canonical_dsn).
Proof.
  split; [vm_compute; reflexivity|].
  apply (@assureUniformDSN_idempotent Sample.checker Sample.cli
           (JStr "localhost 5432, admin secret, assetsdb") (ok canonical_dsn)
           sample_reader_yields_canonical sample_default_conforms).
  - vm_compute. reflexivity.
  - reflexivity.
Defined.

(** [{"type": "video"}]: an unknown type, and no [useCase]. *)
Definition video_asset : jsval := JObj [("type", JStr "video")].

Definition manifest_with_video : jsval :=
  JObj [("settings", JObj [("dsn", canonical_dsn)]);
        ("assets", JArr [video_asset] [])].

(** C5 as stated fails: the only asset of the manifest has the unknown
    type "video" and no [useCase]; the error returned is the one about
    the missing [useCase], not an unknown-type error. *)
Lemma verifyIngestFile_unknown_type_not_reported :
  unknown_type video_asset /\
  verify manifest_with_video = Returned (fail "No useCase field found in asset nr:0") /\
  ~ (exists e, verify manifest_with_video = Returned (fail e) /\
               contains "Unknown asset type" e = true).
Proof.
  split; [exists (JStr "video"); repeat split|].
  split; [vm_compute; reflexivity|].
  intros [e [He Hc]]. vm_compute in He. injection He as <-.
  vm_compute in Hc. discriminate.
Qed.

Definition icon_asset : jsval :=
  JObj [("type", JStr "single"); ("useCase", JStr "icon"); ("single", JObj [])].
Definition tagged_video_asset : jsval :=
  JObj [("type", JStr "video"); ("useCase", JStr "icon")].

Definition manifest_with_tagged_video : jsval :=
  JObj [("settings", JObj [("dsn", canonical_dsn)]);
        ("assets", JArr [icon_asset; tagged_video_asset] [])].

(** The theorem on a manifest whose second asset has the unknown type. *)
Lemma verifyIngestFile_unknown_type_witness :
  verify manifest_with_tagged_video
  = Returned (fail "Unknown asset type in asset nr:1").
Proof.
  assert (Hu : unknown_type tagged_video_asset).
  { exists (JStr "video"). repeat split. }
  assert (Hpass : @settings_pass Sample.checker Sample.cli manifest_with_tagged_video).
  { exists (JObj [("dsn", canonical_dsn)]), canonical_dsn, (ok canonical_dsn).
    repeat split. }
  destruct (@verifyIngestFile_unknown_type Sample.checker Sample.cli
              manifest_with_tagged_video tagged_video_asset [icon_asset] [] []
              eq_refl Hu) as [_ Hreport].
  exact (Hreport [icon_asset] (JStr "icon") Hpass eq_refl eq_refl).
Defined.

(** A collection whose second entry carries an empty transform
    shorthand. *)
Definition entry_ok : jsval := JObj [("transform", JStr "rotate 90")].
Definition entry_ok_normalised : jsval :=
  JObj [("transform",
         JObj [("operation", JStr "rotate"); ("parameters", JArr [JNum 90] [])])].
Definition entry_bad : jsval := JObj [("transform", JStr "")].
Definition entry_late : jsval := JObj [("transform", JStr "scale 2")].

Definition tiles_collection (entries : list jsval) : list (string * jsval) :=
  [("type", JStr "collection"); ("useCase", JStr "icon"); ("name", JStr "tiles");
   ("collection", JObj [("entries", JArr entries [])])].

Definition transform_error : string := "The transform names no operation.".

(** The theorem on that collection, as asset nr 7: the error names
    neither 7 nor the entry's index 1, and the third entry is still in
    its compact notation. *)
Lemma validateCollectionAssetEntry_transform_error_witness :
  @validateCollectionAssetEntry Sample.checker Sample.cli
    (JObj (tiles_collection [entry_ok; entry_bad; entry_late])) 7
  = Returned (JObj (tiles_collection [entry_ok_normalised; entry_bad; entry_late]),
              Some transform_error) /\
  contains "7" transform_error = false /\ contains "1" transform_error = false.
Proof.
  split; [|split; vm_compute; reflexivity].
  exact (@validateCollectionAssetEntry_transform_error Sample.checker Sample.cli
           (tiles_collection [entry_ok; entry_bad; entry_late])
           [("entries", JArr [entry_ok; entry_bad; entry_late] [])] []
           [entry_ok] [entry_ok_normalised] [entry_late]
           entry_bad (JStr "") transform_error 7
           eq_refl eq_refl eq_refl eq_refl eq_refl eq_refl eq_refl eq_refl).
Defined.

(** Scenario 1: the compact DSN is normalised and the manifest with one
    single asset is verified. *)
Example scenario_1 :
  verify (JObj [("settings",
                 JObj [("dsn", JStr "localhost 5432, admin secret, assetsdb, disable")]);
                ("assets", JArr [icon_asset] [])])
  = Returned (ok (JObj [("settings", JObj [("dsn", canonical_dsn)]);
                        ("assets", JArr [icon_asset] [])])).
Proof. vm_compute. reflexivity. Qed.

Definition manifest_with_null_asset : jsval :=
  JObj [("settings", JObj [("dsn", canonical_dsn)]);
        ("assets", JArr [icon_asset; JNull] [])].

(** The theorem on a manifest whose second asset is [null]. *)
Lemma verifyIngestFile_throws_witness : verify manifest_with_null_asset = Thrown.
Proof.
  assert (Hpass : @settings_pass Sample.checker Sample.cli manifest_with_null_asset).
  { exists (JObj [("dsn", canonical_dsn)]), canonical_dsn, (ok canonical_dsn).
    repeat split. }
  exact (proj2 (@verifyIngestFile_throws Sample.checker Sample.cli)
           manifest_with_null_asset [icon_asset] [icon_asset] [] []
           Hpass eq_refl eq_refl).
Defined.

(** The same with a transform object that does not conform: the error
    is the one [assureUniformTransform] builds, without an index. *)
Example nonconforming_transform_object :
  @validateCollectionAssetEntry Sample.checker Sample.cli
    (JObj (tiles_collection [entry_ok; JObj [("transform", JObj [])]; entry_late])) 7
  = Returned
      (JObj (tiles_collection [entry_ok_normalised; JObj [("transform", JObj [])];
                               entry_late]),
       Some ("Transform field does not conform to type: " ++
             "Field operation is missing or of the wrong type")).
Proof. vm_compute. reflexivity. Qed.

(** Scenario 4: the compact transform "rotate 90" of a collection entry
    is replaced by its structured form, and the asset passes. *)
Example scenario_4 :
  @validateCollectionAssetEntry Sample.checker Sample.cli
    (JObj (tiles_collection [entry_ok])) 0
  = Returned (JObj (tiles_collection [entry_ok_normalised]), None).
Proof. vm_compute. reflexivity. Qed.

End IngestFileFacts.

Module TextFacts.

Lemma prefix_app (s t : string) : String.prefix s (s ++ t) = true.
Proof.
  induction s as [|c s IH]; simpl.
  - now destruct t.
  - destruct (ascii_dec c c); [exact IH | contradiction].
Qed.

Lemma contains_here (s post : string) : contains s (s ++ post) = true.
Proof.
  pose proof (prefix_app s post) as H.
  destruct (s ++ post); simpl; simpl in H; rewrite H; reflexivity.
Qed.

Lemma contains_later (s pre t : string) :
  contains s t = true -> contains s (pre ++ t) = true.
Proof.
  intros H. induction pre as [|c pre IH]; simpl; [exact H|].
  rewrite IH. apply orb_true_r.
Qed.

Lemma contains_self (s : string) : contains s s = true.
Proof.
  assert (E : s ++ "" = s) by (induction s as [|c s IH]; simpl; congruence).
  rewrite <- E at 2. apply contains_here.
Qed.

(** A text names what it was concatenated from. *)
Lemma contains_infix (s pre post : string) : contains s (pre ++ s ++ post) = true.
Proof. apply contains_later, contains_here. Qed.

End TextFacts.

Module SubFilesFacts.
Import SubFiles IngestFile TextFacts.

(** *** Ranges *)

Definition well_formed (d : SettingsSubFile) : Prop := (start d <= end_ d)%Z.

(** The inclusive ranges of [a] and [b] share an identifier. *)
Definition overlap (a b : SettingsSubFile) : Prop :=
  (start a <= end_ b)%Z /\ (start b <= end_ a)%Z.

(** Two declarations, at different places of the list, overlap. *)
Definition two_overlap (ds : list SettingsSubFile) (a b : SettingsSubFile) : Prop :=
  exists i j, i <> j /\ nth_error ds i = Some a /\ nth_error ds j = Some b /\ overlap a b.

Definition by_start (a b : SettingsSubFile) : Prop := (start a <= start b)%Z.
Definition strictly_before (a b : SettingsSubFile) : Prop := (end_ a < start b)%Z.

Lemma insert_by_start_perm (d : SettingsSubFile) (l : list SettingsSubFile) :
  Permutation (insert_by_start d l) (d :: l).
Proof.
  induction l as [|e l IH]; simpl; [reflexivity|].
  destruct (start d <=? start e)%Z; [reflexivity|].
  rewrite IH. apply perm_swap.
Qed.

Lemma sort_by_start_perm (l : list SettingsSubFile) : Permutation (sort_by_start l) l.
Proof.
  induction l as [|d l IH]; simpl; [reflexivity|].
  rewrite insert_by_start_perm. now apply perm_skip.
Qed.

Lemma insert_by_start_sorted (d : SettingsSubFile) (l : list SettingsSubFile) :
  StronglySorted by_start l -> StronglySorted by_start (insert_by_start d l).
Proof.
  induction l as [|e l IH]; intros Hs; simpl.
  - constructor; [constructor | constructor].
  - apply StronglySorted_inv in Hs. destruct Hs as [Hl He].
    destruct (start d <=? start e)%Z eqn:Hle.
    + apply Z.leb_le in Hle. constructor.
      * constructor; assumption.
      * constructor; [exact Hle|].
        eapply Forall_impl; [|exact He]. unfold by_start. intros x Hx. lia.
    + apply Z.leb_gt in Hle. constructor; [now apply IH|].
      rewrite (insert_by_start_perm d l). constructor; [|exact He].
      unfold by_start. lia.
Qed.

Lemma sort_by_start_sorted (l : list SettingsSubFile) :
  StronglySorted by_start (sort_by_start l).
Proof.
  induction l as [|d l IH]; simpl; [constructor | now apply insert_by_start_sorted].
Qed.

Lemma StronglySorted_nth_error {A : Type} (R : A -> A -> Prop) (l : list A) :
  StronglySorted R l ->
  forall i j a b, i < j -> nth_error l i = Some a -> nth_error l j = Some b -> R a b.
Proof.
  induction 1 as [|x l Hs IH Hx]; intros i j a b Hij Ha Hb.
  - destruct i; discriminate.
  - destruct j as [|j]; [lia|]. simpl in Hb. destruct i as [|i]; simpl in Ha.
    + injection Ha as <-. rewrite Forall_forall in Hx.
      apply Hx. eapply nth_error_In; eassumption.
    + apply (IH i j); [lia | assumption | assumption].
Qed.

(** The scan reports two neighbours of the list it scans. *)
Lemma first_overlap_adjacent (l : list SettingsSubFile) (e : RangeError) :
  first_overlap l = Some e ->
  exists i a b,
    e = OverlappingRanges a b /\ nth_error l i = Some a /\
    nth_error l (S i) = Some b /\ (start b <= end_ a)%Z.
Proof.
  induction l as [|a l IH]; [discriminate|].
  destruct l as [|b l]; [discriminate|].
  cbn [first_overlap]. destruct (start b <=? end_ a)%Z eqn:Hle.
  - intros [= <-]. exists 0, a, b. apply Z.leb_le in Hle. repeat split. exact Hle.
  - intros H. destruct (IH H) as [i [a' [b' [He [Ha [Hb Hle']]]]]].
    exists (S i), a', b'. repeat split; assumption.
Qed.

(** A sorted list the scan accepts has every range end before all later
    ranges start. *)
Lemma first_overlap_none (l : list SettingsSubFile) :
  StronglySorted by_start l -> first_overlap l = None ->
  StronglySorted strictly_before l.
Proof.
  induction l as [|a l IH]; intros Hs Hnone; [constructor|].
  apply StronglySorted_inv in Hs. destruct Hs as [Hl Ha].
  destruct l as [|b l]; [constructor; constructor|].
  cbn [first_overlap] in Hnone.
  destruct (start b <=? end_ a)%Z eqn:Hle; [discriminate|].
  apply Z.leb_gt in Hle. constructor; [now apply IH|].
  apply StronglySorted_inv in Hl. destruct Hl as [_ Hb].
  constructor; [exact Hle|].
  eapply Forall_impl; [|exact Hb]. unfold by_start, strictly_before. intros x Hx. lia.
Qed.

Lemma two_overlap_perm (l l' : list SettingsSubFile) (a b : SettingsSubFile) :
  Permutation l l' -> two_overlap l a b -> two_overlap l' a b.
Proof.
  intros Hp [i [j [Hij [Ha [Hb Ho]]]]].
  apply Permutation_sym, Permutation_nth_error in Hp.
  destruct Hp as [_ [f [Hinj Hf]]].
  exists (f i), (f j). repeat split; try apply Ho.
  - intros Heq. apply Hij, Hinj, Heq.
  - now rewrite <- Hf.
  - now rewrite <- Hf.
Qed.

Lemma first_overlap_sound (l : list SettingsSubFile) (e : RangeError) :
  Forall well_formed l -> first_overlap (sort_by_start l) = Some e ->
  exists a b, e = OverlappingRanges a b /\ two_overlap l a b.
Proof.
  intros Hwf He.
  destruct (first_overlap_adjacent _ _ He) as [i [a [b [-> [Ha [Hb Hle]]]]]].
  exists a, b. split; [reflexivity|].
  apply (two_overlap_perm (sort_by_start l)); [apply sort_by_start_perm|].
  exists i, (S i). repeat split; try assumption; try lia.
  assert (Hab : by_start a b).
  { apply (StronglySorted_nth_error by_start _ (sort_by_start_sorted l) i (S i));
      [lia | assumption | assumption]. }
  assert (Hb' : well_formed b).
  { rewrite Forall_forall in Hwf. apply Hwf.
    apply (Permutation_in _ (sort_by_start_perm l)). eapply nth_error_In; eassumption. }
  unfold by_start, well_formed in *. lia.
Qed.

Lemma first_overlap_complete (l : list SettingsSubFile) (a b : SettingsSubFile) :
  two_overlap l a b -> first_overlap (sort_by_start l) <> None.
Proof.
  intros Ho Hnone.
  apply (two_overlap_perm _ (sort_by_start l)) in Ho;
    [|apply Permutation_sym, sort_by_start_perm].
  destruct Ho as [i [j [Hij [Ha [Hb [Hab Hba]]]]]].
  pose proof (first_overlap_none _ (sort_by_start_sorted l) Hnone) as Hs.
  destruct (Nat.lt_total i j) as [Hlt|[Heq|Hgt]]; [| contradiction |].
  - pose proof (StronglySorted_nth_error _ _ Hs i j a b Hlt Ha Hb) as H.
    unfold strictly_before in H. lia.
  - pose proof (StronglySorted_nth_error _ _ Hs j i b a Hgt Hb Ha) as H.
    unfold strictly_before in H. lia.
Qed.

Lemma find_malformed_none (ds : list SettingsSubFile) :
  Forall well_formed ds -> find malformed ds = None.
Proof.
  induction 1 as [|d ds Hd _ IH]; simpl; [reflexivity|].
  unfold malformed at 1. unfold well_formed in Hd.
  destruct (end_ d <? start d)%Z eqn:E; [apply Z.ltb_lt in E; lia | exact IH].
Qed.

Lemma find_malformed_some (ds : list SettingsSubFile) (d : SettingsSubFile) :
  In d ds -> (end_ d < start d)%Z ->
  exists d', find malformed ds = Some d' /\ In d' ds /\ (end_ d' < start d')%Z.
Proof.
  intros Hin Hd. destruct (find malformed ds) as [d'|] eqn:Hf.
  - exists d'. split; [reflexivity|]. apply find_some in Hf. destruct Hf as [Hin' Hm].
    split; [exact Hin' | now apply Z.ltb_lt].
  - pose proof (find_none _ _ Hf d Hin) as Hm. unfold malformed in Hm.
    apply Z.ltb_ge in Hm. lia.
Qed.

(** A message names a declaration when it contains its path. *)
Definition names_declaration (message : string) (d : SettingsSubFile) : Prop :=
  contains (path d) message = true.

Section CommandFacts.
Context {TC : TypeChecker} {CLI : CliInputProcessor} {RT : Runtime}.

(** C3.  No declarations: success.  A declaration with [start > end]:
    the range check fails with an error naming such a declaration.
    Well-formed declarations two of which overlap: the check fails with
    an error naming two overlapping declarations.  In both cases
    [handleSubFiles] returns that error.  Well-formed, pairwise disjoint
    declarations: the check succeeds in whatever order they are
    listed. *)
Theorem checkIDRangesOfSubFiles_verdict :
  (forall log,
     handleSubFiles None log = Returned (mkResErr (Some []) None, log) /\
     handleSubFiles (Some []) log = Returned (mkResErr (Some []) None, log)) /\
  (forall ds d log,
     In d ds -> (end_ d < start d)%Z ->
     exists d' message,
       In d' ds /\ (end_ d' < start d')%Z /\
       checkIDRangesOfSubFiles ds = Some message /\
       names_declaration message d' /\
       handleSubFiles (Some ds) log
       = Returned (failed message,
                   logged log ("[if_cmd] Range check failed: " ++ message) ERROR)) /\
  (forall ds a b log,
     Forall well_formed ds -> two_overlap ds a b ->
     exists a' b' message,
       two_overlap ds a' b' /\
       checkIDRangesOfSubFiles ds = Some message /\
       names_declaration message a' /\ names_declaration message b' /\
       handleSubFiles (Some ds) log
       = Returned (failed message,
                   logged log ("[if_cmd] Range check failed: " ++ message) ERROR)) /\
  (forall ds ds',
     Forall well_formed ds -> (forall a b, ~ two_overlap ds a b) ->
     Permutation ds ds' ->
     checkIDRangesOfSubFiles ds' = None).
Proof.
  split; [intros log; split; reflexivity|]. split; [|split].
  - intros ds d log Hin Hd.
    destruct (find_malformed_some ds d Hin Hd) as [d' [Hf [Hin' Hd']]].
    exists d', (describe_range_error (MalformedRange d')).
    assert (Hcheck : checkIDRangesOfSubFiles ds
                     = Some (describe_range_error (MalformedRange d'))).
    { unfold checkIDRangesOfSubFiles, find_range_error. now rewrite Hf. }
    repeat split; try assumption.
    + apply (contains_infix (path d') "Sub-file ").
    + destruct ds as [|d0 ds]; [contradiction|].
      unfold handleSubFiles. rewrite Hcheck. reflexivity.
  - intros ds a b log Hwf Ho.
    destruct (first_overlap (sort_by_start ds)) as [e|] eqn:He;
      [|now destruct (first_overlap_complete _ _ _ Ho)].
    destruct (first_overlap_sound _ _ Hwf He) as [a' [b' [-> Ho']]].
    exists a', b', (describe_range_error (OverlappingRanges a' b')).
    assert (Hcheck : checkIDRangesOfSubFiles ds
                     = Some (describe_range_error (OverlappingRanges a' b'))).
    { unfold checkIDRangesOfSubFiles, find_range_error.
      now rewrite (find_malformed_none _ Hwf), He. }
    repeat split; try assumption.
    + apply (contains_infix (path a') "The id ranges of sub-files ").
    + unfold names_declaration, describe_range_error.
      apply (contains_later _ "The id ranges of sub-files ").
      apply contains_later. apply (contains_infix (path b') " and ").
    + destruct ds as [|d0 ds].
      { destruct Ho as [i [_ [_ [Hnth _]]]]. destruct i; discriminate. }
      unfold handleSubFiles. rewrite Hcheck. reflexivity.
  - intros ds ds' Hwf Hdisjoint Hp.
    assert (Hwf' : Forall well_formed ds') by now rewrite <- Hp.
    unfold checkIDRangesOfSubFiles, find_range_error.
    rewrite (find_malformed_none _ Hwf').
    destruct (first_overlap (sort_by_start ds')) as [e|] eqn:He; [|reflexivity].
    destruct (first_overlap_sound _ _ Hwf' He) as [a [b [_ Ho]]].
    destruct (Hdisjoint a b). apply (two_overlap_perm ds'); [now symmetry | exact Ho].
Qed.

(** *** Identifier assignments *)

Lemma first_out_of_range_some (d : SettingsSubFile) (ids : list Z) (id : Z) :
  In id ids -> (id < start d \/ end_ d < id)%Z ->
  exists id' bound,
    first_out_of_range d ids = Some (IdOutOfRange id' bound) /\ In id' ids /\
    ((id' < start d /\ bound = start d) \/
     (start d <= id' /\ end_ d < id' /\ bound = end_ d))%Z.
Proof.
  induction ids as [|x ids IH]; intros Hin Hout; [contradiction|]. simpl.
  destruct (x <? start d)%Z eqn:Hlo.
  { apply Z.ltb_lt in Hlo. exists x, (start d). repeat split; [now left | now left]. }
  apply Z.ltb_ge in Hlo. destruct (end_ d <? x)%Z eqn:Hhi.
  { apply Z.ltb_lt in Hhi. exists x, (end_ d). repeat split; [now left | now right]. }
  apply Z.ltb_ge in Hhi. destruct Hin as [->|Hin]; [lia|].
  destruct (IH Hin Hout) as [id' [bound [Hf [Hin' Hb]]]].
  exists id', bound. repeat split; [exact Hf | now right | exact Hb].
Qed.

Lemma first_out_of_range_none (d : SettingsSubFile) (ids : list Z) :
  (forall id, In id ids -> start d <= id <= end_ d)%Z ->
  first_out_of_range d ids = None.
Proof.
  induction ids as [|x ids IH]; intros Hall; [reflexivity|]. simpl.
  pose proof (Hall x (or_introl eq_refl)) as Hx.
  destruct (x <? start d)%Z eqn:Hlo; [apply Z.ltb_lt in Hlo; lia|].
  destruct (end_ d <? x)%Z eqn:Hhi; [apply Z.ltb_lt in Hhi; lia|].
  apply IH. intros id Hid. apply Hall. now right.
Qed.

(** The loop, once it is through a list of declarations, goes on with
    the rest. *)
Lemma verifySubFiles_app (pre : list SettingsSubFile) :
  forall rest verified log verified' log',
    verifySubFiles pre verified log = Returned (mkResErr (Some verified') None, log') ->
    verifySubFiles (pre ++ rest) verified log = verifySubFiles rest verified' log'.
Proof.
  induction pre as [|d pre IH]; intros rest verified log verified' log'; simpl.
  - intros [= <- <-]. reflexivity.
  - destruct (conformsToType _ _); [discriminate|].
    destruct (error (readIngestFile (path d))); [discriminate|].
    destruct (verifyIngestFileAssets _) as [v| |]; try discriminate. simpl.
    destruct (truthy (snd v)); [discriminate|].
    destruct (truthy (verifySubFileIDAssignments d (fst v))); [discriminate|].
    apply IH.
Qed.

(** C4.  If an identifier of the sub-file lies outside the declared
    range, the assignment check fails with a message that names an
    offending identifier and the bound it violates; if all lie within
    it, the check succeeds.  [handleSubFiles] returns the error of the
    check once the declaration is reached and the sub-file is read and
    validated. *)
Theorem verifySubFileIDAssignments_verdict (d : SettingsSubFile) (subFile : jsval) :
  (forall id,
     In id (identifiers subFile) -> (id < start d \/ end_ d < id)%Z ->
     exists id' bound message,
       In id' (identifiers subFile) /\
       ((id' < start d /\ bound = start d) \/ (end_ d < id' /\ bound = end_ d))%Z /\
       verifySubFileIDAssignments d subFile = Some message /\
       contains (show_Z id') message = true /\
       contains (show_Z bound) message = true) /\
  ((forall id, In id (identifiers subFile) -> start d <= id <= end_ d)%Z ->
   verifySubFileIDAssignments d subFile = None) /\
  (forall pre post log verified log' document message,
     truthy (checkIDRangesOfSubFiles (pre ++ d :: post)%list) = None ->
     verifySubFiles pre [] log = Returned (mkResErr (Some verified) None, log') ->
     conformsToType (declaration_value d) INGEST_FILE_SETTINGS_TYPEDECL = None ->
     readIngestFile (path d) = ok document ->
     verifyIngestFileAssets document = Returned (subFile, None) ->
     verifySubFileIDAssignments d subFile = Some message ->
     handleSubFiles (Some (pre ++ d :: post)%list) log
     = Returned (failed message,
                 logged log' ("[if_cmd] ID assignment error in sub-file: " ++
                              path d ++ nl ++ tab ++ message) ERROR)).
Proof.
  split; [|split].
  - intros id Hin Hout.
    destruct (first_out_of_range_some d _ id Hin Hout) as [id' [bound [Hf [Hin' Hb]]]].
    exists id', bound, (describe_assignment_error d (IdOutOfRange id' bound)).
    repeat split.
    + exact Hin'.
    + destruct Hb as [Hb|Hb]; [left | right]; lia.
    + unfold verifySubFileIDAssignments. now rewrite Hf.
    + apply (contains_infix (show_Z id') "Asset id ").
    + unfold describe_assignment_error.
      apply (contains_later _ "Asset id "). apply contains_later.
      apply (contains_later _ " of sub-file "). apply contains_later.
      apply (contains_later _ " is outside the declared range, whose bound is ").
      apply contains_self.
  - intros Hall. unfold verifySubFileIDAssignments.
    now rewrite (first_out_of_range_none d _ Hall).
  - intros pre post log verified log' document message Hrange Hpre Hdecl Hread Hassets Hid.
    assert (Hrun : handleSubFiles (Some (pre ++ d :: post)%list) log
                   = verifySubFiles (pre ++ d :: post)%list [] log).
    { unfold handleSubFiles. rewrite Hrange. now destruct (pre ++ d :: post)%list. }
    rewrite Hrun, (verifySubFiles_app pre _ _ _ _ _ Hpre). simpl.
    rewrite Hdecl, Hread. simpl. rewrite Hassets. simpl. rewrite Hid.
    unfold verifySubFileIDAssignments in Hid.
    destruct (first_out_of_range d (identifiers subFile)) as [[id bound]|];
      [|discriminate].
    injection Hid as <-. reflexivity.
Qed.

(** C8 (as the code has it).  When the retrieval of a declared sub-file
    fails, [handleSubFiles] returns the error of [readIngestFile]
    unchanged: the missing-file message, which quotes the path, or the
    parse failure, which does not mention it.  The path goes in front of
    the error in the log entry only. *)
Theorem handleSubFiles_retrieval_error
  (pre post : list SettingsSubFile) (d : SettingsSubFile)
  (log log' : list LogEntry) (verified : list jsval) (e : string) :
  truthy (checkIDRangesOfSubFiles (pre ++ d :: post)%list) = None ->
  verifySubFiles pre [] log = Returned (mkResErr (Some verified) None, log') ->
  conformsToType (declaration_value d) INGEST_FILE_SETTINGS_TYPEDECL = None ->
  error (readIngestFile (path d)) = Some e ->
  handleSubFiles (Some (pre ++ d :: post)%list) log
  = Returned (failed e,
              logged log' ("[if_cmd] Failed to read sub-file: " ++ path d ++
                           nl ++ tab ++ e) ERROR) /\
  ((file_exists (path d) = false /\
    e = "File: " ++ dq ++ path d ++ dq ++ " does not exist. WD: " ++ import_meta_dir) \/
   (file_exists (path d) = true /\
    exists exception,
      JSON_parse (file_text (path d)) = inr exception /\
      e = "Failed to parse IngestFile: " ++ exception)).
Proof.
  intros Hrange Hpre Hdecl Hread. split.
  - assert (Hrun : handleSubFiles (Some (pre ++ d :: post)%list) log
                   = verifySubFiles (pre ++ d :: post)%list [] log).
    { unfold handleSubFiles. rewrite Hrange. now destruct (pre ++ d :: post)%list. }
    rewrite Hrun, (verifySubFiles_app pre _ _ _ _ _ Hpre). simpl.
    now rewrite Hdecl, Hread.
  - unfold readIngestFile in Hread. destruct (file_exists (path d)); simpl in Hread.
    + right. split; [reflexivity|].
      destruct (JSON_parse (file_text (path d))) as [doc|exception]; [discriminate|].
      exists exception. split; [reflexivity|]. now injection Hread as <-.
    + left. split; [reflexivity|]. now injection Hread as <-.
Qed.

End CommandFacts.

(** *** The properties at concrete declarations *)

Definition handle := @handleSubFiles Sample.checker Sample.cli Sample.runtime.

Definition first_ten : SettingsSubFile := {| path := "icons.json"; start := 1; end_ := 10 |}.
Definition five_to_fifteen : SettingsSubFile :=
  {| path := "tiles.json"; start := 5; end_ := 15 |}.
Definition second_ten : SettingsSubFile :=
  {| path := "tiles.json"; start := 11; end_ := 20 |}.
Definition broken : SettingsSubFile := {| path := "broken.json"; start := 1; end_ := 10 |}.

(** Scenario 2: the ranges [1,10] and [5,15] overlap. *)
Example scenario_2 :
  checkIDRangesOfSubFiles [first_ten; five_to_fifteen]
  = Some "The id ranges of sub-files icons.json and tiles.json overlap".
Proof. vm_compute. reflexivity. Qed.

Lemma first_second_disjoint : forall a b, ~ two_overlap [first_ten; second_ten] a b.
Proof.
  intros a b [i [j [Hij [Ha [Hb [Hab Hba]]]]]].
  destruct i as [|[|[|i]]]; destruct j as [|[|[|j]]]; simpl in Ha, Hb;
    try discriminate; try congruence;
    injection Ha as <-; injection Hb as <-; simpl in *; lia.
Qed.

Lemma first_second_well_formed : Forall well_formed [first_ten; second_ten].
Proof. repeat constructor; unfold well_formed; simpl; lia. Qed.

(** The theorem on the ranges of scenario 2, and on [1,10] and [11,20]
    listed in reverse. *)
Lemma checkIDRangesOfSubFiles_verdict_witness :
  (exists message, checkIDRangesOfSubFiles [first_ten; five_to_fifteen] = Some message) /\
  checkIDRangesOfSubFiles [second_ten; first_ten] = None.
Proof.
  destruct (@checkIDRangesOfSubFiles_verdict Sample.checker Sample.cli Sample.runtime)
    as [_ [_ [Hoverlap Hdisjoint]]].
  split.
  - assert (Hwf : Forall well_formed [first_ten; five_to_fifteen]).
    { repeat constructor; unfold well_formed; simpl; lia. }
    assert (Ho : two_overlap [first_ten; five_to_fifteen] first_ten five_to_fifteen).
    { exists 0, 1. repeat split; simpl; try lia; discriminate. }
    destruct (Hoverlap _ _ _ [] Hwf Ho) as [a' [b' [message [_ [Hcheck _]]]]].
    exists message. exact Hcheck.
  - apply (Hdisjoint [first_ten; second_ten]).
    + exact first_second_well_formed.
    + exact first_second_disjoint.
    + apply perm_swap.
Defined.

(** Scenario 3, the theorem on the sub-file [icons.json]: declared with
    the range [1,10], it holds an asset with the identifier 11. *)
Lemma verifySubFileIDAssignments_verdict_witness :
  handle (Some [first_ten]) []
  = Returned
      (failed ("Asset id 11 of sub-file icons.json is outside the declared range, " ++
               "whose bound is 10"),
       [("[if_cmd] ID assignment error in sub-file: icons.json" ++ nl ++ tab ++
         "Asset id 11 of sub-file icons.json is outside the declared range, " ++
         "whose bound is 10", ERROR)]).
Proof.
  destruct (@verifySubFileIDAssignments_verdict Sample.checker Sample.cli Sample.runtime
              first_ten (Sample.single_asset_document 11)) as [_ [_ Hhandle]].
  exact (Hhandle [] [] [] [] [] (Sample.single_asset_document 11)
           ("Asset id 11 of sub-file icons.json is outside the declared range, " ++
            "whose bound is 10")
           eq_refl eq_refl eq_refl eq_refl eq_refl eq_refl).
Defined.

(** The theorem on the sub-file [broken.json]. *)
Lemma handleSubFiles_retrieval_error_witness :
  handle (Some [broken]) []
  = Returned
      (failed "Failed to parse IngestFile: SyntaxError: JSON Parse error: Unexpected EOF",
       [("[if_cmd] Failed to read sub-file: broken.json" ++ nl ++ tab ++
         "Failed to parse IngestFile: SyntaxError: JSON Parse error: Unexpected EOF",
         ERROR)]).
Proof.
  exact (proj1 (@handleSubFiles_retrieval_error Sample.checker Sample.cli Sample.runtime
                  [] [] broken [] [] []
                  "Failed to parse IngestFile: SyntaxError: JSON Parse error: Unexpected EOF"
                  eq_refl eq_refl eq_refl eq_refl)).
Defined.

(** C8 as stated fails: the error returned for [broken.json], which does
    not parse, does not start with the path of the declaration; it does
    not contain it. *)
Lemma handleSubFiles_error_not_prefixed :
  ~ (exists e log,
       handle (Some [broken]) [] = Returned (failed e, log) /\
       contains (path broken) e = true).
Proof.
  intros [e [log [He Hc]]]. vm_compute in He. injection He as <- _.
  vm_compute in Hc. discriminate.
Qed.

End SubFilesFacts.

Module LodFacts.
Import Lod.

Section GeneratorFacts.
Context {IT : ImageTools}.

(** The loop appends to the levels generated so far, numbering on from
    [detailLevel]; a run that ends without an error returns them all. *)
Lemma downscaleWhileAbove_levels (fuel : nat) :
  forall sizeThreshold blobType currentBlob level lods r,
    map detailLevel lods = seq 0 level ->
    downscaleWhileAbove fuel sizeThreshold blobType currentBlob level lods = Some r ->
    error r = None ->
    exists more,
      result r = Some (lods ++ more)%list /\
      map detailLevel (lods ++ more)%list = seq 0 (List.length (lods ++ more)%list).
Proof.
  induction fuel as [|fuel IH]; intros thr ty cur level lods r Hinv; simpl;
    destruct (Qlt_bool thr (kilobytes cur)).
  - discriminate.
  - intros [= <-] _. exists []. rewrite app_nil_r. split; [reflexivity|].
    rewrite Hinv. f_equal. now rewrite <- (length_map detailLevel), Hinv, length_seq.
  - destruct (downscaleImage cur) as [smaller|e].
    + intros Hrun Hok.
      destruct (IH thr ty smaller (S level)
                  (lods ++ [{| detailLevel := level; blob := smaller; type := ty |}])%list r)
        as [more [Hres Hlevels]]; try assumption.
      { rewrite map_app, Hinv, seq_S. reflexivity. }
      rewrite <- app_assoc in Hres, Hlevels. eexists. split; eassumption.
    + intros [= <-]. discriminate.
  - intros [= <-] _. exists []. rewrite app_nil_r. split; [reflexivity|].
    rewrite Hinv. f_equal. now rewrite <- (length_map detailLevel), Hinv, length_seq.
Qed.

(** C10.  When [generateLODs] succeeds, the list it returns starts with
    level 0, which holds the input blob itself (bytes and type as
    given) under the image type the call resolved (the overwrite, or the
    conforming MIME type of the blob), and the detail levels are 0, 1,
    ..., n in order.  On a blob of size 0 it returns an error and no
    list, whatever the number of rounds allowed. *)
Theorem generateLODs_levels (blob : Blob.t) (sizeThreshold : Q)
  (typeOverwrite : option ImageMIMEType) :
  (forall fuel r,
     generateLODs fuel blob sizeThreshold typeOverwrite = Some r -> error r = None ->
     exists first rest,
       result r = Some (first :: rest) /\
       detailLevel first = 0 /\ Lod.blob first = blob /\
       match typeOverwrite with
       | Some blobType => type first = blobType
       | None => findConformingMIMEType (Blob.type blob) = Result (type first)
       end /\
       map detailLevel (first :: rest) = seq 0 (S (List.length rest))) /\
  (Blob.size blob = 0 ->
   forall fuel, exists e,
     generateLODs fuel blob sizeThreshold typeOverwrite = Some (not_generated e) /\
     result (not_generated e) = None).
Proof.
  assert (Hty : forall blobType,
    (forall fuel r,
       generateLODsOfType fuel blob sizeThreshold blobType = Some r -> error r = None ->
       exists first rest,
         result r = Some (first :: rest) /\
         detailLevel first = 0 /\ Lod.blob first = blob /\ type first = blobType /\
         map detailLevel (first :: rest) = seq 0 (S (List.length rest))) /\
    (Blob.size blob = 0 ->
     forall fuel, exists e,
       generateLODsOfType fuel blob sizeThreshold blobType = Some (not_generated e) /\
       result (not_generated e) = None)).
  { intros ty. unfold generateLODsOfType. split.
    - intros fuel r.
      destruct (checkIfImageTypeIsSupported ty); simpl; [|intros [= <-]; discriminate].
      destruct (Nat.eqb (Blob.size blob) 0); [intros [= <-]; discriminate|].
      destruct (is_SVG ty).
      { intros [= <-] _. do 2 eexists. repeat split. }
      destruct (Qlt_bool (kilobytes blob) sizeThreshold).
      { intros [= <-] _. do 2 eexists. repeat split. }
      intros Hrun Hok.
      destruct (downscaleWhileAbove_levels fuel _ _ _ 1
                  [{| detailLevel := 0; blob := blob; type := ty |}] r eq_refl Hrun Hok)
        as [more [Hres Hlevels]].
      simpl in Hres, Hlevels. do 2 eexists.
      split; [exact Hres|]. repeat (split; [reflexivity|]). exact Hlevels.
    - intros Hsize fuel. rewrite Hsize. simpl.
      destruct (checkIfImageTypeIsSupported ty); simpl; eauto. }
  unfold generateLODs. destruct typeOverwrite as [ty|]; [apply Hty|].
  destruct (findConformingMIMEType (Blob.type blob)) as [ty|e].
  - destruct (Hty ty) as [Hsuccess Hempty]. split; [|exact Hempty].
    intros fuel r Hrun Hok.
    destruct (Hsuccess fuel r Hrun Hok) as [first [rest [Hres [Hl [Hb [Ht Hlevels]]]]]].
    exists first, rest. rewrite Ht. repeat split; assumption.
  - split; [intros fuel r [= <-]; discriminate | eauto].
Qed.

(** The list [generateLODs] returns is tagged throughout with the type
    the call resolved: the overwrite, or the conforming MIME type of the
    blob. *)
Lemma downscaleWhileAbove_type (fuel : nat) :
  forall sizeThreshold blobType currentBlob level lods r more,
    Forall (fun lod => type lod = blobType) lods ->
    downscaleWhileAbove fuel sizeThreshold blobType currentBlob level lods = Some r ->
    result r = Some more ->
    Forall (fun lod => type lod = blobType) more.
Proof.
  induction fuel as [|fuel IH]; intros thr ty cur level lods r more Hall; simpl;
    destruct (Qlt_bool thr (kilobytes cur)).
  - discriminate.
  - intros [= <-] [= <-]. exact Hall.
  - destruct (downscaleImage cur) as [smaller|e].
    + apply IH. apply Forall_app. split; [exact Hall | repeat constructor].
    + intros [= <-]. discriminate.
  - intros [= <-] [= <-]. exact Hall.
Qed.

End GeneratorFacts.

(** An image of eight bytes and a threshold of three bytes. *)
Definition eight_bytes : Blob.t :=
  {| Blob.bytes := repeat Byte.x00 8; Blob.type := "image/png" |}.
Definition two_bytes : Blob.t :=
  {| Blob.bytes := repeat Byte.x00 2; Blob.type := "image/png" |}.

(** The theorem on that image: one round of downscaling, two levels. *)
Lemma generateLODs_levels_witness :
  @generateLODs Sample.image_tools 1 eight_bytes (3 # 1000) None
  = Some (generated [{| detailLevel := 0; blob := eight_bytes; type := PNG |};
                     {| detailLevel := 1; blob := two_bytes; type := PNG |}]) /\
  exists first rest,
    Some [{| detailLevel := 0; blob := eight_bytes; type := PNG |};
          {| detailLevel := 1; blob := two_bytes; type := PNG |}]
    = Some (first :: rest) /\
    detailLevel first = 0 /\ blob first = eight_bytes /\
    map detailLevel (first :: rest) = seq 0 (S (List.length rest)).
Proof.
  split; [reflexivity|].
  destruct (proj1 (@generateLODs_levels Sample.image_tools eight_bytes (3 # 1000) None)
              1 _ eq_refl eq_refl) as [first [rest [Hres [Hlevel [Hblob [_ Hlevels]]]]]].
  exists first, rest. repeat split; assumption.
Defined.

(** An empty blob yields the error of the size check. *)
Example generateLODs_empty :
  @generateLODs Sample.image_tools 0 {| Blob.bytes := []; Blob.type := "image/png" |}
    (3 # 1000) None
  = Some (not_generated "This blob is empty.").
Proof. reflexivity. Qed.

End LodFacts.

(* ================================================================== *)
(** * Part III: further properties of the ingest-file verifier *)
(* ================================================================== *)

Module IngestFileMore.
Import IngestFile JsFacts TextFacts IngestFileFacts.

#[local] Arguments verifyAssets : simpl never.
#[local] Arguments validateEntries : simpl never.

Section EntryValidators.
Context {TC : TypeChecker} {CLI : CliInputProcessor}.

(** X1.  Every error [validateSingleAssetEntry] returns names the index
    of the asset, and the validator throws on no asset other than [null]
    and [undefined]. *)
Theorem validateSingleAssetEntry_errors (asset : jsval) (entryNum : nat) :
  (forall e, validateSingleAssetEntry asset entryNum = Returned (Some e) ->
             contains (show_nat entryNum) e = true) /\
  (nullish asset = false ->
   exists verdict, validateSingleAssetEntry asset entryNum = Returned verdict).
Proof.
  unfold validateSingleAssetEntry. split.
  - intros e. destruct (conformsToType asset _) as [typeError|].
    + intros [= <-]. apply (contains_infix _ "Type error in single asset nr ").
    + destruct (get_prop asset "single") as [single| |]; try discriminate. simpl.
      destruct (conformsToType single _) as [typeError|]; [|discriminate].
      intros [= <-].
      apply (contains_infix _ "Type error in single field of single asset nr ").
  - intros Hn. destruct (conformsToType asset _); [eauto|].
    assert (exists single, get_prop asset "single" = Returned single) as [single ->]
      by (destruct asset; try discriminate; simpl; eauto).
    simpl. destruct (conformsToType single _); eauto.
Qed.

(** The loop over the entries of a collection returns two kinds of
    errors. *)
Lemma validateEntries_error (entryNum : nat) (entries : list jsval) :
  forall i entries' e,
    validateEntries entryNum i entries = Returned (entries', Some e) ->
    contains (show_nat entryNum) e = true \/
    exists transform, error (assureUniformTransform transform) = Some e.
Proof.
  induction entries as [|source rest IH]; intros i entries' e;
    [discriminate|].
  rewrite validateEntries_cons.
  destruct (conformsToType source _) as [sourceTypeError|].
  - intros [= _ <-]. left.
    apply (contains_later _ "Type error in source nr: "), contains_later.
    apply (contains_infix _ " in collection asset nr: ").
  - destruct (get_prop source "transform") as [t| |]; try discriminate. simpl.
    destruct (error (assureUniformTransform t)) as [e'|] eqn:He.
    + intros [= _ <-]. right. eauto.
    + destruct (set_prop source "transform" _) as [source'| |]; try discriminate. simpl.
      destruct (validateEntries entryNum (S i) rest) as [[es err]| |] eqn:Hrec;
        try discriminate.
      simpl. intros [= _ ->]. exact (IH _ _ _ Hrec).
Qed.

(** X2.  An error of [validateCollectionAssetEntry] is a type error that
    names the index of the asset, or else it is the error
    [assureUniformTransform] gave for a transform, passed on as it
    is. *)
Theorem validateCollectionAssetEntry_errors (asset asset' : jsval) (entryNum : nat)
  (e : string) :
  validateCollectionAssetEntry asset entryNum = Returned (asset', Some e) ->
  contains (show_nat entryNum) e = true \/
  exists transform, error (assureUniformTransform transform) = Some e.
Proof.
  unfold validateCollectionAssetEntry.
  destruct (conformsToType asset _) as [topLevelTypeError|].
  { intros [= _ <-]. left.
    apply (contains_infix _ "Type error in collection asset nr "). }
  destruct (get_prop asset "collection") as [collection| |]; try discriminate. simpl.
  destruct (conformsToType collection _) as [collectionFieldTypeError|].
  { intros [= _ <-]. left.
    apply (contains_infix _ "Type error in collection field on collection asset nr "). }
  assert (Hof : forall entries,
            validateEntriesOf asset collection entries entryNum
            = Returned (asset', Some e) ->
            contains (show_nat entryNum) e = true \/
            exists transform, error (assureUniformTransform transform) = Some e).
  { intros entries. unfold validateEntriesOf.
    destruct entries as [| | | |s|es ps|]; try discriminate.
    - destruct (validateEntries entryNum 0 (chars s)) as [[es' err]| |] eqn:Hrun;
        try discriminate.
      simpl. intros [= _ ->]. exact (validateEntries_error _ _ _ _ _ Hrun).
    - destruct (validateEntries entryNum 0 es) as [[es' err]| |] eqn:Hrun;
        try discriminate.
      simpl. destruct (set_prop collection "entries" _) as [collection'| |];
        try discriminate.
      simpl. destruct (set_prop asset "collection" _) as [asset''| |];
        try discriminate.
      simpl. intros [= _ ->]. exact (validateEntries_error _ _ _ _ _ Hrun). }
  destruct collection as [| | | | |es ps|fs]; try discriminate.
  - destruct (has_own "entries" ps); [apply Hof | discriminate].
  - apply Hof.
Qed.

(** What a run of the loop without an error did to each entry. *)
Definition normalised_from (source source' : jsval) : Prop :=
  conformsToType source INGEST_FILE_COLLECTION_ENTRY_TYPEDECL = None /\
  exists transform,
    get_prop source "transform" = Returned transform /\
    error (assureUniformTransform transform) = None /\
    set_prop source "transform" (result (assureUniformTransform transform))
    = Returned source'.

Lemma validateEntries_success (entryNum : nat) (entries : list jsval) :
  forall i entries',
    validateEntries entryNum i entries = Returned (entries', None) ->
    Forall2 normalised_from entries entries'.
Proof.
  induction entries as [|source rest IH]; intros i entries'.
  - intros [= <-]. constructor.
  - rewrite validateEntries_cons.
    destruct (conformsToType source _) eqn:Hc; [discriminate|].
    destruct (get_prop source "transform") as [t| |] eqn:Ht; try discriminate. simpl.
    destruct (error (assureUniformTransform t)) eqn:He; [discriminate|].
    destruct (set_prop source "transform" _) as [source'| |] eqn:Hs; try discriminate.
    simpl.
    destruct (validateEntries entryNum (S i) rest) as [[es err]| |] eqn:Hrec;
      try discriminate.
    simpl. intros [= <- ->]. constructor; [|exact (IH _ _ Hrec)].
    split; [exact Hc|]. exists t. repeat split; assumption.
Qed.

(** X3.  When [validateCollectionAssetEntry] accepts a collection asset
    whose entries are an array, the asset it leaves behind differs from
    the one it was given in the transforms of the entries only: there
    are as many entries, in the same order, each passed the conformance
    check, and each carries the canonical form of its transform. *)
Theorem validateCollectionAssetEntry_success
  (fs cs ps : list (string * jsval)) (entries : list jsval) (asset' : jsval)
  (entryNum : nat) :
  lookup "collection" fs = JObj cs ->
  lookup "entries" cs = JArr entries ps ->
  validateCollectionAssetEntry (JObj fs) entryNum = Returned (asset', None) ->
  exists entries',
    asset' = JObj (store "collection"
                     (JObj (store "entries" (JArr entries' ps) cs)) fs) /\
    Forall2 normalised_from entries entries'.
Proof.
  intros Hcoll Hentries. unfold validateCollectionAssetEntry.
  destruct (conformsToType (JObj fs) _); [discriminate|]. simpl. rewrite Hcoll.
  destruct (conformsToType (JObj cs) _); [discriminate|]. rewrite Hentries.
  unfold validateEntriesOf.
  destruct (validateEntries entryNum 0 entries) as [[es' err]| |] eqn:Hrun;
    try discriminate.
  simpl. intros [= <- ->]. exists es'. split; [reflexivity|].
  exact (validateEntries_success _ _ _ _ Hrun).
Qed.

End EntryValidators.

Section ManifestFacts.
Context {TC : TypeChecker} {CLI : CliInputProcessor}.





(** X5.  [verifyIngestFile] never returns a pair with both sides set or
    both sides [null]: when it returns, either the error is [null] and
    the result is the document, or the result is [null] and the error is
    a message. *)
Theorem verifyIngestFile_exactly_one_side (rawFile : jsval) (r : ResErr jsval) :
  verifyIngestFile rawFile = Returned r ->
  (error r = None /\ result r <> JNull) \/
  (result r = JNull /\ exists e, error r = Some e).
Proof.
  assert (Hfail : forall e, fail e = r ->
            (error r = None /\ result r <> JNull) \/
            (result r = JNull /\ exists e, error r = Some e)).
  { intros e <-. right. split; [reflexivity | eexists; reflexivity]. }
  unfold verifyIngestFile.
  destruct (get_prop rawFile "settings") as [settings| |]; try discriminate.
  simpl. destruct (nullish settings); [intros [= E]; exact (Hfail _ E)|].
  destruct (get_prop settings "dsn") as [dsn| |]; try discriminate.
  simpl. destruct (nullish dsn); [intros [= E]; exact (Hfail _ E)|].
  destruct (assureUniformDSN dsn) as [d| |]; try discriminate.
  simpl. destruct (error d); [intros [= E]; exact (Hfail _ E)|].
  destruct (set_prop settings "dsn" (result d)) as [settings'| |];
    try discriminate.
  simpl.
  destruct (set_prop rawFile "settings" settings') as [rawFile'| |];
    try discriminate.
  simpl. destruct (get_prop rawFile' "assets") as [assets| |]; try discriminate.
  simpl. destruct (nullish assets); [intros [= E]; exact (Hfail _ E)|].
  destruct assets as [| | | | |[|a0 es] ps|]; try (intros [= E]; exact (Hfail _ E)).
  destruct (verifyAssets 0 (a0 :: es)) as [[es' err]| |]; try discriminate.
  simpl. destruct err; [intros [= E]; exact (Hfail _ E)|].
  destruct (set_prop rawFile' "assets" (JArr es' ps)) as [rawFile''| |] eqn:Hfin;
    try discriminate.
  simpl. intros [= <-]. left. split; [reflexivity|]. simpl.
  destruct rawFile'; simpl in Hfin; try discriminate; injection Hfin as <-;
    discriminate.
Qed.

(** An error of the loop over the assets stands whatever entries
    follow. *)
Lemma verifyAssets_error_stands (assets : list jsval) :
  forall i assets' e more,
    verifyAssets i assets = Returned (assets', Some e) ->
    verifyAssets i (assets ++ more) = Returned ((assets' ++ more)%list, Some e).
Proof.
  induction assets as [|asset rest IH]; intros i assets' e more; [discriminate|].
  simpl app. rewrite !verifyAssets_cons.
  destruct (get_prop asset "type") as [t| |]; try discriminate. simpl.
  destruct (nullish t); [now intros [= <- <-]|].
  destruct (get_prop asset "useCase") as [u| |]; try discriminate. simpl.
  destruct (nullish u); [now intros [= <- <-]|].
  destruct (is_string t "single").
  - destruct (validateSingleAssetEntry asset i) as [[e'|]| |]; try discriminate; simpl.
    + now intros [= <- <-].
    + destruct (verifyAssets (S i) rest) as [[es err]| |] eqn:Hrec; try discriminate.
      simpl. intros [= <- ->]. now rewrite (IH _ _ _ more Hrec).
  - destruct (is_string t "collection"); [|now intros [= <- <-]].
    destruct (validateCollectionAssetEntry asset i) as [[asset'' [e'|]]| |];
      try discriminate; simpl.
    + now intros [= <- <-].
    + destruct (verifyAssets (S i) rest) as [[es err]| |] eqn:Hrec; try discriminate.
      simpl. intros [= <- ->]. now rewrite (IH _ _ _ more Hrec).
Qed.

(** X6.  [verifyIngestFile] stops at the first asset that fails: when a
    manifest is rejected for one of its assets, the manifest with further
    assets appended to the list is rejected with the same error,
    whatever those assets are. *)
Theorem verifyIngestFile_first_failure
  (rawFile : jsval) (assets assets' more : list jsval) (ps : list (string * jsval))
  (e : string) :
  settings_pass rawFile ->
  get_prop rawFile "assets" = Returned (JArr assets ps) ->
  verifyAssets 0 assets = Returned (assets', Some e) ->
  forall rawFile',
    set_prop rawFile "assets" (JArr (assets ++ more) ps) = Returned rawFile' ->
    verifyIngestFile rawFile = Returned (fail e) /\
    verifyIngestFile rawFile' = Returned (fail e).
Proof.
  intros Hpass Ha Hrun rawFile' Hset.
  assert (Hne : assets <> []) by (destruct assets; discriminate).
  split.
  - exact (proj1 (verifyIngestFile_assets _ _ _ Hpass Ha Hne) _ _ Hrun).
  - assert (Hpass' : settings_pass rawFile').
    { destruct Hpass as [s [dsn [d [Hs H]]]]. exists s, dsn, d.
      rewrite (set_prop_get_other _ _ _ _ "settings" Hset) by discriminate.
      split; assumption. }
    assert (Ha' : get_prop rawFile' "assets" = Returned (JArr (assets ++ more) ps)).
    { destruct rawFile; simpl in Hset; try discriminate; injection Hset as <-;
        simpl; now rewrite lookup_store_same. }
    assert (Hne' : (assets ++ more)%list <> []) by (destruct assets; discriminate).
    exact (proj1 (verifyIngestFile_assets _ _ _ Hpass' Ha' Hne') _ _
             (verifyAssets_error_stands _ _ _ _ more Hrun)).
Qed.

End ManifestFacts.


(** *** The properties at concrete assets and manifests *)

(** The theorem on the collection of the third scenario, as asset nr 7:
    its error is the one [assureUniformTransform] gave. *)
Lemma validateCollectionAssetEntry_errors_witness :
  @validateCollectionAssetEntry Sample.checker Sample.cli
    (JObj (tiles_collection [entry_ok; entry_bad; entry_late])) 7
  = Returned (JObj (tiles_collection [entry_ok_normalised; entry_bad; entry_late]),
              Some transform_error) /\
  (contains "7" transform_error = true \/
   exists transform,
     error (@assureUniformTransform Sample.checker Sample.cli transform)
     = Some transform_error).
Proof.
  split; [reflexivity|].
  exact (@validateCollectionAssetEntry_errors Sample.checker Sample.cli
           (JObj (tiles_collection [entry_ok; entry_bad; entry_late])) _ 7
           transform_error eq_refl).
Defined.

Definition entry_late_normalised : jsval :=
  JObj [("transform",
         JObj [("operation", JStr "scale"); ("parameters", JArr [JNum 2] [])])].

(** The theorem on a collection of two entries in compact notation. *)
Lemma validateCollectionAssetEntry_success_witness :
  Forall2 (@normalised_from Sample.checker Sample.cli)
    [entry_ok; entry_late] [entry_ok_normalised; entry_late_normalised].
Proof.
  destruct (@validateCollectionAssetEntry_success Sample.checker Sample.cli
              (tiles_collection [entry_ok; entry_late])
              [("entries", JArr [entry_ok; entry_late] [])] []
              [entry_ok; entry_late]
              (JObj (tiles_collection [entry_ok_normalised; entry_late_normalised])) 3
              eq_refl eq_refl eq_refl) as [entries' [Hasset Hall]].
  vm_compute in Hasset. injection Hasset as <-. exact Hall.
Defined.


(** The theorem on a manifest without [assets], and on the manifest
    above. *)
Lemma verifyIngestFile_exactly_one_side_witness :
  (exists r, verify manifest_without_assets = Returned r /\
             result r = JNull /\ exists e, error r = Some e) /\
  (exists r, verify SampleMore.good_manifest = Returned r /\
             ((error r = None /\ result r <> JNull) \/
              (result r = JNull /\ exists e, error r = Some e))).
Proof.
  split.
  - eexists. split; [reflexivity|].
    destruct (@verifyIngestFile_exactly_one_side Sample.checker Sample.cli
                manifest_without_assets _ eq_refl) as [[Hok _]|Hfailed];
      [discriminate | exact Hfailed].
  - eexists. split; [reflexivity|].
    exact (@verifyIngestFile_exactly_one_side Sample.checker Sample.cli
             SampleMore.good_manifest _ eq_refl).
Defined.

(** The theorem on the manifest whose second asset has an unknown type,
    followed by [null]: as the only asset [null] makes the verifier
    throw; behind the failing asset it is not looked at. *)
Lemma verifyIngestFile_first_failure_witness :
  verify manifest_with_tagged_video
  = Returned (fail "Unknown asset type in asset nr:1") /\
  verify (JObj [("settings", JObj [("dsn", canonical_dsn)]);
                ("assets", JArr [icon_asset; tagged_video_asset; JNull] [])])
  = Returned (fail "Unknown asset type in asset nr:1").
Proof.
  assert (Hpass : @settings_pass Sample.checker Sample.cli manifest_with_tagged_video).
  { exists (JObj [("dsn", canonical_dsn)]), canonical_dsn, (ok canonical_dsn).
    repeat split. }
  exact (@verifyIngestFile_first_failure Sample.checker Sample.cli
           manifest_with_tagged_video [icon_asset; tagged_video_asset]
           [icon_asset; tagged_video_asset] [JNull] []
           "Unknown asset type in asset nr:1" Hpass eq_refl eq_refl _ eq_refl).
Defined.

End IngestFileMore.

Module SubFilesMore.
Import SubFiles IngestFile TextFacts SubFilesFacts.

Section HandleSubFiles.
Context {TC : TypeChecker} {CLI : CliInputProcessor} {RT : Runtime}.

(** What [handleSubFiles] did for a declaration whose document it
    returns: the declaration passed the conformance check, its file was
    read and parsed, the assets of the document were validated, which
    left the document as [document], and its identifiers passed the
    assignment check. *)
Definition loaded (d : SettingsSubFile) (document : jsval) : Prop :=
  conformsToType (declaration_value d) INGEST_FILE_SETTINGS_TYPEDECL = None /\
  error (readIngestFile (path d)) = None /\
  exists verifyError,
    verifyIngestFileAssets (result (readIngestFile (path d)))
    = Returned (document, verifyError) /\
    truthy verifyError = None /\
    truthy (verifySubFileIDAssignments d document) = None.

(** The two ways the loop over the declarations ends. *)
Lemma verifySubFiles_ends (subFiles : list SettingsSubFile) :
  forall verified log r log',
    verifySubFiles subFiles verified log = Returned (r, log') ->
    (exists documents,
       r = mkResErr (Some (verified ++ documents)%list) None /\ log' = log /\
       Forall2 loaded subFiles documents) \/
    (exists e message,
       r = failed e /\ log' = logged log message ERROR /\
       contains e message = true).
Proof.
  induction subFiles as [|d rest IH]; intros verified log r log'; simpl.
  - intros [= <- <-]. left. exists []. rewrite app_nil_r. repeat split. constructor.
  - destruct (conformsToType _ _) as [typeCheck|] eqn:Hdecl.
    { intros [= <- <-]. right. do 2 eexists. repeat split.
      apply (contains_later _ "[if_cmd] "), contains_self. }
    destruct (error (readIngestFile (path d))) as [e|] eqn:Hread.
    { intros [= <- <-]. right. do 2 eexists. repeat split.
      apply (contains_later _ "[if_cmd] Failed to read sub-file: ").
      apply contains_later. apply (contains_later _ (nl ++ tab)), contains_self. }
    destruct (verifyIngestFileAssets _) as [[document verifyError]| |] eqn:Hassets;
      try discriminate.
    simpl. destruct (truthy verifyError) as [e|] eqn:Hverify.
    { intros [= <- <-]. right. do 2 eexists. repeat split.
      apply (contains_later _ "[if_cmd] Failed to verify sub-file: ").
      apply contains_later. apply (contains_later _ (nl ++ tab)), contains_self. }
    destruct (truthy (verifySubFileIDAssignments d document)) as [e|] eqn:Hid.
    { intros [= <- <-]. right. do 2 eexists. repeat split.
      apply (contains_later _ "[if_cmd] ID assignment error in sub-file: ").
      apply contains_later. apply (contains_later _ (nl ++ tab)), contains_self. }
    intros Hrun. destruct (IH _ _ _ _ Hrun) as [[documents [-> [-> Hall]]]|Hfail];
      [|right; exact Hfail].
    left. exists (document :: documents). rewrite <- app_assoc. repeat split.
    constructor; [|exact Hall]. repeat split; try assumption.
    exists verifyError. repeat split; assumption.
Qed.

(** The declarations [handleSubFiles] works through. *)
Definition declared (subFiles : option (list SettingsSubFile)) : list SettingsSubFile :=
  match subFiles with
  | Some declarations => declarations
  | None => []
  end.

(** X7.  When [handleSubFiles] succeeds it returns one document for
    each declaration, in the order of the declarations, each read from
    the path of its declaration and passed through the three checks; the
    range check passed, and nothing was written to the log. *)
Theorem handleSubFiles_success
  (subFiles : option (list SettingsSubFile)) (log log' : list LogEntry)
  (r : ResErr (option (list jsval))) :
  handleSubFiles subFiles log = Returned (r, log') -> error r = None ->
  exists documents,
    result r = Some documents /\ log' = log /\
    Forall2 loaded (declared subFiles) documents /\
    truthy (checkIDRangesOfSubFiles (declared subFiles)) = None.
Proof.
  unfold handleSubFiles. destruct subFiles as [[|d ds]|]; simpl declared.
  - intros [= <- <-] _. exists []. repeat split. constructor.
  - destruct (truthy (checkIDRangesOfSubFiles (d :: ds))) as [e|] eqn:Hrange.
    { intros [= <- _]. discriminate. }
    intros Hrun Hok.
    destruct (verifySubFiles_ends _ _ _ _ _ Hrun)
      as [[documents [-> [-> Hall]]]|[e [message [-> _]]]]; [|discriminate].
    exists documents. repeat split; assumption.
  - intros [= <- <-] _. exists []. repeat split. constructor.
Qed.

(** X8.  When [handleSubFiles] fails it returns no documents, not even
    those of the sub-files it had verified before the failure, and it
    has written exactly one entry to the log, at level ERROR, whose
    message contains the error returned. *)
Theorem handleSubFiles_failure
  (subFiles : option (list SettingsSubFile)) (log log' : list LogEntry)
  (r : ResErr (option (list jsval))) (e : string) :
  handleSubFiles subFiles log = Returned (r, log') -> error r = Some e ->
  result r = None /\
  exists message, log' = logged log message ERROR /\ contains e message = true.
Proof.
  unfold handleSubFiles. destruct subFiles as [[|d ds]|].
  - intros [= <- <-]. discriminate.
  - destruct (truthy (checkIDRangesOfSubFiles (d :: ds))) as [e'|] eqn:Hrange.
    { intros [= <- <-] [= <-]. split; [reflexivity|]. eexists. split; [reflexivity|].
      apply (contains_later _ "[if_cmd] Range check failed: "), contains_self. }
    intros Hrun Herr.
    destruct (verifySubFiles_ends _ _ _ _ _ Hrun)
      as [[documents [-> _]]|[e' [message [-> [-> Hc]]]]]; [discriminate|].
    injection Herr as <-. split; [reflexivity|]. eauto.
  - intros [= <- <-]. discriminate.
Qed.

End HandleSubFiles.


(** *** The properties at concrete declarations *)

(** The theorem on the sub-file [tiles.json], declared with the range
    [5,15]. *)
Lemma handleSubFiles_success_witness :
  handle (Some [five_to_fifteen]) [] = Returned (mkResErr (Some [Sample.single_asset_document 5]) None, []) /\
  Forall2 (@loaded Sample.checker Sample.cli Sample.runtime)
    [five_to_fifteen] [Sample.single_asset_document 5].
Proof.
  split; [reflexivity|].
  destruct (@handleSubFiles_success Sample.checker Sample.cli Sample.runtime
              (Some [five_to_fifteen]) [] []
              (mkResErr (Some [Sample.single_asset_document 5]) None)
              eq_refl eq_refl) as [documents [Hresult [_ [Hall _]]]].
  injection Hresult as <-. exact Hall.
Defined.

(** The theorem on [tiles.json] followed by [icons.json], whose asset
    lies outside the range declared for it: the document of
    [tiles.json], which passed, is not returned. *)
Lemma handleSubFiles_failure_witness :
  exists r log' e message,
    handle (Some [{| path := "tiles.json"; start := 1; end_ := 10 |};
                  {| path := "icons.json"; start := 12; end_ := 20 |}]) []
    = Returned (r, log') /\
    error r = Some e /\ result r = None /\
    log' = [(message, ERROR)] /\ contains e message = true.
Proof.
  assert (Hrun : exists r log' e,
            handle (Some [{| path := "tiles.json"; start := 1; end_ := 10 |};
                          {| path := "icons.json"; start := 12; end_ := 20 |}]) []
            = Returned (r, log') /\
            error r = Some e /\ contains "icons.json" e = true).
  { do 3 eexists. split; [reflexivity|]. split; reflexivity. }
  destruct Hrun as [r [log' [e [Hrun [Herr _]]]]].
  destruct (@handleSubFiles_failure Sample.checker Sample.cli Sample.runtime
              _ _ _ _ _ Hrun Herr) as [Hresult [message [Hlog Hmessage]]].
  exists r, log', e, message. repeat split; assumption.
Defined.

End SubFilesMore.

Module LodMore.
Import Lod.

Section GeneratorMore.
Context {IT : ImageTools}.


(** Each level is the downscaled image of the level before it. *)
Fixpoint chained (lods : list LODDTO) : Prop :=
  match lods with
  | lod :: ((next :: _) as rest) =>
      downscaleImage (blob lod) = Result (blob next) /\ chained rest
  | _ => True
  end.

(** Every level but the last holds an image above the threshold. *)
Fixpoint above_but_last (sizeThreshold : Q) (lods : list LODDTO) : Prop :=
  match lods with
  | lod :: ((_ :: _) as rest) =>
      Qlt_bool sizeThreshold (kilobytes (blob lod)) = true /\
      above_but_last sizeThreshold rest
  | _ => True
  end.

Lemma chained_snoc (lods : list LODDTO) (lod next : LODDTO) :
  chained (lods ++ [lod]) -> downscaleImage (blob lod) = Result (blob next) ->
  chained ((lods ++ [lod]) ++ [next]).
Proof.
  induction lods as [|a lods IH]; simpl; [tauto|].
  intros H Hnext. destruct (lods ++ [lod])%list as [|b l] eqn:E.
  - destruct lods; discriminate.
  - simpl. destruct H as [Hab Hrest]. split; [exact Hab|]. now apply IH.
Qed.

Lemma above_but_last_snoc (thr : Q) (lods : list LODDTO) (lod next : LODDTO) :
  above_but_last thr (lods ++ [lod]) -> Qlt_bool thr (kilobytes (blob lod)) = true ->
  above_but_last thr ((lods ++ [lod]) ++ [next]).
Proof.
  induction lods as [|a lods IH]; simpl; [tauto|].
  intros H Hnext. destruct (lods ++ [lod])%list as [|b l] eqn:E.
  - destruct lods; discriminate.
  - simpl. destruct H as [Hab Hrest]. split; [exact Hab|]. now apply IH.
Qed.

(** The invariant of the [while] loop: the levels generated so far end
    with the current image, are chained by [downscaleImage], carry the
    type of the call and are above the threshold up to the last. *)
Lemma downscaleWhileAbove_chain (fuel : nat) :
  forall thr ty lods lod level r,
    chained (lods ++ [lod]) -> above_but_last thr (lods ++ [lod]) ->
    Forall (fun l => type l = ty) (lods ++ [lod]) ->
    downscaleWhileAbove fuel thr ty (blob lod) level (lods ++ [lod]) = Some r ->
    (exists e, r = not_generated e) \/
    (exists more final,
       r = generated (more ++ [final]) /\
       chained (more ++ [final]) /\ above_but_last thr (more ++ [final]) /\
       Forall (fun l => type l = ty) (more ++ [final]) /\
       Qlt_bool thr (kilobytes (blob final)) = false).
Proof.
  induction fuel as [|fuel IH]; intros thr ty lods lod level r Hchain Habove Hty; simpl;
    destruct (Qlt_bool thr (kilobytes (blob lod))) eqn:Hcur.
  - discriminate.
  - intros [= <-]. right. exists lods, lod. repeat split; assumption.
  - destruct (downscaleImage (blob lod)) as [smaller|e] eqn:Hdown.
    + set (next := {| detailLevel := level; blob := smaller; type := ty |}).
      intros Hrun.
      apply (IH thr ty (lods ++ [lod])%list next (S level) r); try assumption.
      * now apply chained_snoc.
      * now apply above_but_last_snoc.
      * apply Forall_app. split; [exact Hty | repeat constructor].
    + intros [= <-]. left. eauto.
  - intros [= <-]. right. exists lods, lod. repeat split; assumption.
Qed.


(** X10.  In the list [generateLODs] returns, each level after the first
    holds what [downscaleImage] made of the image of the level before
    it, and all levels carry one image type. *)
Theorem generateLODs_chain (fuel : nat) (blob : Blob.t) (sizeThreshold : Q)
  (typeOverwrite : option ImageMIMEType) (lods : list LODDTO) :
  generateLODs fuel blob sizeThreshold typeOverwrite = Some (generated lods) ->
  chained lods /\ exists ty, Forall (fun l => type l = ty) lods.
Proof.
  assert (Hty : forall ty,
            generateLODsOfType fuel blob sizeThreshold ty = Some (generated lods) ->
            chained lods /\ exists ty, Forall (fun l => type l = ty) lods).
  { intros ty. unfold generateLODsOfType.
    destruct (checkIfImageTypeIsSupported ty); simpl; [|discriminate].
    destruct (Nat.eqb (Blob.size blob) 0); [discriminate|].
    destruct (is_SVG ty).
    { intros [= <-]. split; [exact I|]. exists ty. repeat constructor. }
    destruct (Qlt_bool (kilobytes blob) sizeThreshold).
    { intros [= <-]. split; [exact I|]. exists ty. repeat constructor. }
    intros Hrun.
    assert (Hfirst : Forall (fun l => type l = ty)
                       ([] ++ [{| detailLevel := 0; blob := blob; type := ty |}]))
      by (repeat constructor).
    destruct (downscaleWhileAbove_chain fuel sizeThreshold ty []
                {| detailLevel := 0; blob := blob; type := ty |} 1 _
                I I Hfirst Hrun)
      as [[e He]|[more [final [Hr [Hchain [_ [Htype _]]]]]]]; [discriminate|].
    injection Hr as ->. split; [exact Hchain | eauto]. }
  unfold generateLODs. destruct typeOverwrite as [ty|]; [apply Hty|].
  destruct (findConformingMIMEType (Blob.type blob)) as [ty|e]; [apply Hty|discriminate].
Qed.


End GeneratorMore.

Section Rounds.
Context {IT : ImageTools}.

Lemma downscaleWhileAbove_more_rounds (fuel : nat) :
  forall extra thr ty cur level lods r,
    downscaleWhileAbove fuel thr ty cur level lods = Some r ->
    downscaleWhileAbove (fuel + extra) thr ty cur level lods = Some r.
Proof.
  induction fuel as [|fuel IH]; intros extra thr ty cur level lods r; simpl.
  - destruct (Qlt_bool thr (kilobytes cur)) eqn:Hcur; [discriminate|].
    intros [= <-]. destruct extra; simpl; now rewrite Hcur.
  - destruct (Qlt_bool thr (kilobytes cur)); [|auto].
    destruct (downscaleImage cur); [apply IH | auto].
Qed.

Lemma downscaleWhileAbove_ends (fuel : nat) :
  (forall b b', downscaleImage b = Result b' -> Blob.size b' < Blob.size b) ->
  forall thr ty cur level lods,
    Blob.size cur < fuel ->
    exists r, downscaleWhileAbove fuel thr ty cur level lods = Some r.
Proof.
  intros Hshrink. induction fuel as [|fuel IH]; intros thr ty cur level lods Hsize;
    [lia|].
  simpl. destruct (Qlt_bool thr (kilobytes cur)); [|eauto].
  destruct (downscaleImage cur) as [smaller|e] eqn:Hdown; [|eauto].
  apply IH. pose proof (Hshrink _ _ Hdown). lia.
Qed.

(** X12.  If every image [downscaleImage] returns has fewer bytes than
    the image it was given, [generateLODs] returns, after no more
    rounds of the loop than the input has bytes, plus one. *)
Theorem generateLODs_returns (blob : Blob.t) (sizeThreshold : Q)
  (typeOverwrite : option ImageMIMEType) :
  (forall b b', downscaleImage b = Result b' -> Blob.size b' < Blob.size b) ->
  exists r, forall fuel,
    Blob.size blob < fuel ->
    generateLODs fuel blob sizeThreshold typeOverwrite = Some r.
Proof.
  intros Hshrink.
  assert (Hty : forall ty, exists r, forall fuel,
            Blob.size blob < fuel ->
            generateLODsOfType fuel blob sizeThreshold ty = Some r).
  { intros ty. unfold generateLODsOfType.
    destruct (negb (checkIfImageTypeIsSupported ty)); [eauto|].
    destruct (Nat.eqb (Blob.size blob) 0); [eauto|].
    destruct (is_SVG ty); [eauto|].
    destruct (Qlt_bool (kilobytes blob) sizeThreshold); [eauto|].
    destruct (downscaleWhileAbove_ends (S (Blob.size blob)) Hshrink sizeThreshold ty
                blob 1 [{| detailLevel := 0; blob := blob; type := ty |}]) as [r Hr];
      [lia|].
    exists r. intros fuel Hfuel.
    replace fuel with (S (Blob.size blob) + (fuel - S (Blob.size blob))) by lia.
    now apply downscaleWhileAbove_more_rounds. }
  unfold generateLODs. destruct typeOverwrite as [ty|]; [apply Hty|].
  destruct (findConformingMIMEType (Blob.type blob)) as [ty|e]; [apply Hty | eauto].
Qed.



End Rounds.


(** *** The properties at concrete images *)

Definition eight_bytes_levels : list LODDTO :=
  [{| detailLevel := 0; blob := LodFacts.eight_bytes; type := PNG |};
   {| detailLevel := 1; blob := LodFacts.two_bytes; type := PNG |}].


(** The theorem on an image of eight bytes and a threshold of three
    bytes. *)
Lemma generateLODs_chain_witness :
  @chained Sample.image_tools eight_bytes_levels /\
  exists ty, Forall (fun l => type l = ty) eight_bytes_levels.
Proof.
  exact (@generateLODs_chain Sample.image_tools 1 LodFacts.eight_bytes (3 # 1000) None
           eight_bytes_levels eq_refl).
Defined.


(** The image tool of the samples returns a quarter of the bytes. *)
Lemma quarter_shrinks (b b' : Blob.t) :
  Sample.quarter b = Result b' -> Blob.size b' < Blob.size b.
Proof.
  unfold Sample.quarter. destruct (Nat.ltb_spec (Blob.size b) 4) as [|Hsize];
    [discriminate|].
  intros [= <-]. unfold Blob.size in *. cbn [Blob.bytes]. rewrite length_firstn.
  change (fst (Nat.divmod (List.length (Blob.bytes b)) 3 0 3))
    with (List.length (Blob.bytes b) / 4).
  pose proof (Nat.div_lt (List.length (Blob.bytes b)) 4). lia.
Qed.

(** The theorem on the image of eight bytes, with that tool. *)
Lemma generateLODs_returns_witness :
  exists r, forall fuel,
    Blob.size LodFacts.eight_bytes < fuel ->
    @generateLODs Sample.image_tools fuel LodFacts.eight_bytes (3 # 1000) None = Some r.
Proof.
  exact (@generateLODs_returns Sample.image_tools LodFacts.eight_bytes (3 # 1000) None
           quarter_shrinks).
Defined.


End LodMore.

Module BlobFetcherFacts.
Import Lod BlobFetcher.

(** No dot in a piece of text. *)
Fixpoint no_dot (s : string) : bool :=
  match s with
  | EmptyString => true
  | String c rest => negb (Ascii.eqb c "."%char) && no_dot rest
  end.

Lemma last_piece_no_dot (s : string) :
  forall acc, no_dot s = true -> last_piece acc s = acc ++ s.
Proof.
  induction s as [|c s IH]; intros acc Hs; simpl.
  - clear Hs. induction acc as [|a acc IHacc]; simpl; congruence.
  - simpl in Hs. apply andb_true_iff in Hs. destruct Hs as [Hc Hs].
    apply negb_true_iff in Hc. rewrite Hc, (IH _ Hs).
    clear. induction acc as [|a acc IHacc]; simpl; congruence.
Qed.

Lemma last_piece_after_dot (pre ext : string) :
  forall acc, no_dot ext = true -> last_piece acc (pre ++ "." ++ ext) = ext.
Proof.
  induction pre as [|c pre IH]; intros acc Hext; simpl.
  - now rewrite (last_piece_no_dot _ _ Hext).
  - destruct (Ascii.eqb c "."%char); now apply IH.
Qed.

(** X14.  [getTypeFromURL] looks at nothing but what follows the last
    dot of the URL: a URL that ends in a dot and an extension gets the
    type the extension alone gets. *)
Theorem getTypeFromURL_extension (pre ext : string) :
  no_dot ext = true ->
  getTypeFromURL (pre ++ "." ++ ext) = getTypeFromURL ext.
Proof.
  intros Hext. unfold getTypeFromURL.
  now rewrite (last_piece_after_dot _ _ _ Hext), (last_piece_no_dot _ _ Hext).
Qed.

Lemma discoverContentType_found (response : Response) (names : list string) :
  discoverContentType response names <> "" ->
  exists headerName,
    In headerName names /\ headers_has response headerName = true /\
    headers_get response headerName = discoverContentType response names.
Proof.
  induction names as [|n names IH]; simpl; [congruence|].
  destruct (headers_has response n) eqn:Hn.
  - intros _. exists n. auto.
  - intros H. destruct (IH H) as [m [Hin Hm]]. exists m. auto.
Qed.

(** X15.  The content type [getTypeFromResponseHeaders] finds is never
    the empty string, and it is the value the headers hold under one of
    the listed names.  The first listed name decides when the headers
    have it: an empty value under it is an error, whatever the headers
    hold under the other names. *)
Theorem getTypeFromResponseHeaders_found (response : Response) :
  (forall t, getTypeFromResponseHeaders response = Result t ->
     t <> "" /\
     exists headerName,
       In headerName contentTypeHeaderNames /\
       headers_has response headerName = true /\
       headers_get response headerName = t) /\
  (headers_has response "content-type" = true ->
   getTypeFromResponseHeaders response
   = if String.eqb (headers_get response "content-type") ""
     then Error "Could not determine content type from headers"
     else Result (headers_get response "content-type")).
Proof.
  unfold getTypeFromResponseHeaders. split.
  - intros t.
    destruct (String.eqb_spec (discoverContentType response contentTypeHeaderNames) "")
      as [E|Hne]; [discriminate|].
    intros [= <-]. split; [exact Hne|]. now apply discoverContentType_found.
  - intros Hhas. simpl. now rewrite Hhas.
Qed.

Section FetcherFacts.
Context {ENV : Environment}.

(** X16.  A blob [fetchBlobOverHTTP] returns holds the bytes of the body
    of a response that was [ok].  A body that came with a type is
    returned as it is.  A body without one gets the type constructed
    from the conforming MIME type of what the headers say or, only when
    the headers give nothing, of what the extension of the URL says. *)
Theorem fetchBlobOverHTTP_blob (url : string) (b : Blob.t) :
  result (fetchBlobOverHTTP url) = Some b ->
  exists response blob,
    fetch url = Result response /\ ok response = true /\
    body response = Result blob /\
    Blob.bytes b = Blob.bytes blob /\
    (Blob.type blob <> "" -> b = blob) /\
    (Blob.type blob = "" ->
     exists discoveredType mime,
       findConformingMIMEType discoveredType = Result mime /\
       Blob.type b = constructed_type mime /\
       (getTypeFromResponseHeaders response = Result discoveredType \/
        ((exists e, getTypeFromResponseHeaders response = Error e) /\
         getTypeFromURL url = Result discoveredType))).
Proof.
  unfold fetchBlobOverHTTP.
  destruct (fetch url) as [response|message]; [|discriminate].
  destruct (ok response) eqn:Hok; simpl; [|discriminate].
  destruct (body response) as [blob|message] eqn:Hbody; [|discriminate].
  destruct (String.eqb_spec (Blob.type blob) "") as [Hempty|Htyped].
  - destruct (getTypeFromResponseHeaders response) as [fromHeaders|e] eqn:Hheaders.
    + destruct (findConformingMIMEType fromHeaders) as [mime|e] eqn:Hmime;
        [|discriminate].
      simpl. intros [= <-]. exists response, blob.
      repeat split; try assumption; try congruence.
      intros _. exists fromHeaders, mime. auto.
    + destruct (getTypeFromURL url) as [fromURL|e'] eqn:Hurl; [|discriminate].
      destruct (findConformingMIMEType fromURL) as [mime|e''] eqn:Hmime;
        [|discriminate].
      simpl. intros [= <-]. exists response, blob.
      repeat split; try assumption; try congruence.
      intros _. exists fromURL, mime. repeat split; try assumption.
      right. split; [eauto | reflexivity].
  - simpl. intros [= <-]. exists response, blob.
    repeat split; try assumption; congruence.
Qed.

(** X17.  A blob [fetchBlobFromFile] returns holds the bytes of the file
    at the path, and the file is handed out with the conforming MIME
    type of its type: as it is when that is its type already, under the
    type constructed from the MIME type otherwise. *)
Theorem fetchBlobFromFile_blob (url : string) (init : bool)
  (r : ResErr (option Blob.t)) (b : Blob.t) :
  fetchBlobFromFile url init = Some r -> result r = Some b ->
  exists file mime,
    Bun_file url = Some file /\
    findConformingMIMEType (Blob.type file) = Result mime /\
    Blob.bytes b = Blob.bytes file /\
    (mime = Blob.type file -> b = file) /\
    (mime <> Blob.type file -> Blob.type b = constructed_type mime).
Proof.
  unfold fetchBlobFromFile.
  destruct (Bun_file url) as [file|]; [|intros [= <-]; discriminate].
  destruct (findConformingMIMEType (Blob.type file)) as [mime|e] eqn:Hmime;
    [|intros [= <-]; discriminate].
  destruct (init && negb (arrayBuffer_resolves url)); [discriminate|].
  intros [= <-]. simpl. intros [= <-]. exists file, mime.
  destruct (String.eqb_spec mime (Blob.type file)); repeat split;
    try reflexivity; try assumption; congruence.
Qed.

(** X18.  [fetchBlobFromUrl] always comes back with a pair, of which
    exactly one side is set: no error thrown by [fetch], by reading the
    body or by the file system escapes it.  The empty URL is an error,
    and so is a file that does not exist. *)
Theorem fetchBlobFromUrl_pair (url : string) :
  exists r,
    fetchBlobFromUrl url = Some r /\
    ((exists b, r = fetched b) \/ (exists e, r = not_fetched e)) /\
    (url = "" -> r = not_fetched "Invalid source url") /\
    (url <> "" -> String.prefix "http" url = false -> String.prefix "www" url = false ->
     Bun_file url = None -> r = not_fetched "File does not exist").
Proof.
  unfold fetchBlobFromUrl. destruct (String.eqb_spec url "") as [->|Hne].
  - eexists. split; [reflexivity|]. split; [eauto|]. split; [reflexivity|congruence].
  - destruct (String.prefix "http" url || String.prefix "www" url) eqn:Hweb.
    + exists (fetchBlobOverHTTP url). split; [reflexivity|]. split; [|split].
      * unfold fetchBlobOverHTTP.
        repeat match goal with
               | |- context [match ?x with _ => _ end] => destruct x
               end; eauto.
      * congruence.
      * intros _ H1 H2. rewrite H1, H2 in Hweb. discriminate.
    + unfold fetchBlobFromFile. destruct (Bun_file url) as [file|].
      * destruct (findConformingMIMEType (Blob.type file)) as [mime|e]; simpl;
          eexists; (split; [reflexivity|]); (split; [eauto|]);
          split; congruence.
      * eexists. split; [reflexivity|]. split; [eauto|]. split; [congruence|reflexivity].
Qed.

End FetcherFacts.


(** *** The properties at concrete addresses and files *)

(** The theorem on a URL with two dots. *)
Lemma getTypeFromURL_extension_witness :
  getTypeFromURL "http://cdn.example/tile.v2.png" = Result "image/png".
Proof.
  exact (getTypeFromURL_extension "http://cdn.example/tile.v2" "png" eq_refl).
Defined.

(** The theorem on an address whose response has a body without a type
    and a [content-type] header. *)
Lemma fetchBlobOverHTTP_blob_witness :
  exists b response blob,
    result (@fetchBlobOverHTTP SampleMore.environment "http://cdn.example/icon") = Some b /\
    @fetch SampleMore.environment "http://cdn.example/icon" = Result response /\
    body response = Result blob /\ Blob.bytes b = Blob.bytes blob /\
    Blob.type blob = "" /\ Blob.type b = "image/png".
Proof.
  assert (Hrun : exists b,
            result (@fetchBlobOverHTTP SampleMore.environment "http://cdn.example/icon")
            = Some b /\ Blob.type b = "image/png").
  { eexists. split; reflexivity. }
  destruct Hrun as [b [Hrun Htype]].
  destruct (@fetchBlobOverHTTP_blob SampleMore.environment _ _ Hrun)
    as (response & blob & Hfetch & _ & Hbody & Hbytes & _).
  exists b, response, blob. repeat split; try assumption.
  injection Hfetch as <-. injection Hbody as <-. reflexivity.
Defined.

(** The theorem on a file of type "image/jpg", whose conforming MIME
    type is "image/jpeg". *)
Lemma fetchBlobFromFile_blob_witness :
  exists r b file,
    @fetchBlobFromFile SampleMore.environment "photo.jpg" true = Some r /\
    result r = Some b /\
    @Bun_file SampleMore.environment "photo.jpg" = Some file /\
    Blob.bytes b = Blob.bytes file /\
    Blob.type file = "image/jpg" /\ Blob.type b = "image/jpeg".
Proof.
  assert (Hrun : exists r b,
            @fetchBlobFromFile SampleMore.environment "photo.jpg" true = Some r /\
            result r = Some b).
  { do 2 eexists. split; reflexivity. }
  destruct Hrun as [r [b [Hrun Hresult]]].
  destruct (@fetchBlobFromFile_blob SampleMore.environment _ _ _ _ Hrun Hresult)
    as (file & mime & Hfile & Hmime & Hbytes & _ & Hretyped).
  exists r, b, file. injection Hfile as <-. injection Hmime as <-.
  repeat split; try assumption; try reflexivity.
  apply Hretyped. discriminate.
Defined.

End BlobFetcherFacts.

Module CommandFacts.
Import IngestFile SubFiles Command JsFacts.

Section RunFacts.
Context {TC : TypeChecker} {CLI : CliInputProcessor} {RT : Runtime}
        {DB : Database} {ARGS : UrlArgs}.

(** The assets [processIngestFile] uploads as collections. *)
Definition is_collection (asset : jsval) : bool :=
  match get_prop asset "type" with
  | Returned type => negb (is_string type "single") && is_string type "collection"
  | _ => false
  end.

Lemma readPathArgs_no_path (args : list string) (url : string) :
  Forall (fun arg => String.prefix "path=" arg = false) args ->
  readPathArgs args url = Lod.Result url.
Proof.
  induction 1 as [|arg args Harg _ IH]; simpl; [reflexivity|]. now rewrite Harg.
Qed.

(** X19.  Without an argument that starts with "path=",
    [handleIngestFileInput] fails with "No path argument provided";
    it reads no file, writes nothing to the log and makes no call on the
    database. *)
Theorem handleIngestFileInput_no_path (args : list string) (w : Effects) :
  Forall (fun arg => String.prefix "path=" arg = false) args ->
  handleIngestFileInput args w = Returned (failure "No path argument provided", w).
Proof.
  intros Hargs. unfold handleIngestFileInput.
  now rewrite (readPathArgs_no_path _ _ Hargs).
Qed.

(** The loop that ends without an error has made one call of
    [establishCollection] for each collection among the assets, in
    their order, and no other call. *)
Lemma uploadAssets_success (assets : list jsval) :
  forall w r w',
    uploadAssets assets w = Returned (r, w') -> error r = None ->
    result r = Some "Ingest file succesfully processed and uploaded" /\
    exists requests,
      calls w' = (calls w ++ map EstablishCollection requests)%list /\
      Forall2 (fun asset request => collectionRequest asset = Returned request)
              (filter is_collection assets) requests.
Proof.
  induction assets as [|asset rest IH]; intros w r w'; simpl.
  - intros [= <- <-] _. split; [reflexivity|]. exists []. simpl.
    rewrite app_nil_r. split; [reflexivity | constructor].
  - unfold is_collection.
    destruct (get_prop asset "type") as [type| |]; try discriminate. simpl.
    destruct (is_string type "single"); simpl.
    + destruct (get_prop asset "id") as [id| |]; try discriminate. simpl.
      destruct (to_string id) as [shown| |]; try discriminate. simpl.
      intros Hrun Hok. exact (IH _ _ _ Hrun Hok).
    + destruct (is_string type "collection"); [|apply IH].
      destruct (get_prop asset "name") as [name| |]; try discriminate. simpl.
      destruct (to_string name) as [shown| |]; try discriminate. simpl.
      destruct (collectionRequest asset) as [request| |] eqn:Hrequest;
        try discriminate.
      simpl. destruct (error (establishCollection _ request)).
      { intros [= <- _]. discriminate. }
      intros Hrun Hok. destruct (IH _ _ _ Hrun Hok) as [Hres [requests [Hcalls Hall]]].
      split; [exact Hres|]. exists (request :: requests). split.
      * rewrite Hcalls. simpl. now rewrite <- app_assoc.
      * now constructor.
Qed.

(** The loop that ends with an error has just made the call of
    [establishCollection] that was answered with it. *)
Lemma uploadAssets_failure (assets : list jsval) :
  forall w r w' e,
    uploadAssets assets w = Returned (r, w') -> error r = Some e ->
    result r = None /\
    exists before request,
      calls w' = (calls w ++ before ++ [EstablishCollection request])%list /\
      error (establishCollection (calls w ++ before) request) = Some e.
Proof.
  induction assets as [|asset rest IH]; intros w r w' e; simpl.
  - intros [= <- _]. discriminate.
  - destruct (get_prop asset "type") as [type| |]; try discriminate. simpl.
    destruct (is_string type "single").
    + destruct (get_prop asset "id") as [id| |]; try discriminate. simpl.
      destruct (to_string id) as [shown| |]; try discriminate. simpl.
      intros Hrun Herr. exact (IH _ _ _ _ Hrun Herr).
    + destruct (is_string type "collection"); [|apply IH].
      destruct (get_prop asset "name") as [name| |]; try discriminate. simpl.
      destruct (to_string name) as [shown| |]; try discriminate. simpl.
      destruct (collectionRequest asset) as [request| |]; try discriminate.
      simpl. destruct (error (establishCollection _ request)) as [e'|] eqn:Hanswer.
      { intros [= <- <-] [= <-]. split; [reflexivity|]. exists [], request.
        simpl. rewrite app_nil_r. split; [reflexivity | exact Hanswer]. }
      intros Hrun Herr.
      destruct (IH _ _ _ _ Hrun Herr) as [Hres [before [failing [Hcalls Hanswer']]]].
      split; [exact Hres|]. exists (EstablishCollection request :: before), failing.
      simpl in Hcalls, Hanswer'. rewrite <- app_assoc in Hcalls, Hanswer'.
      split; assumption.
Qed.

(** The assets [processIngestFile] walks through. *)
Definition iterated (assets : jsval) : list jsval :=
  match assets with
  | JArr es _ => es
  | JStr s => chars s
  | _ => []
  end.

(** X20.  When [processIngestFile] succeeds, the calls it made on the
    database are [connect] with [settings.dsn], which was answered
    without an error, and then one [establishCollection] for each asset
    of type "collection", in the order of the assets, with the
    [useCase], the [name] and the [collection.entries] of that asset;
    single assets lead to no call. *)
Theorem processIngestFile_success (ingestScript : jsval) (w w' : Effects)
  (r : ResErr (option string)) :
  processIngestFile ingestScript w = Returned (r, w') -> error r = None ->
  exists settings dsn assets requests,
    get_prop ingestScript "settings" = Returned settings /\
    get_prop settings "dsn" = Returned dsn /\
    connect (calls w) dsn = None /\
    get_prop ingestScript "assets" = Returned assets /\
    calls w' = (calls w ++ Connect dsn :: map EstablishCollection requests)%list /\
    Forall2 (fun asset request => collectionRequest asset = Returned request)
            (filter is_collection (iterated assets)) requests.
Proof.
  unfold processIngestFile.
  destruct (get_prop ingestScript "settings") as [settings| |]; try discriminate.
  simpl. destruct (get_prop settings "dsn") as [dsn| |] eqn:Hdsn; try discriminate.
  simpl. destruct (connect (calls w) dsn) eqn:Hconnect.
  { intros [= <- _]. discriminate. }
  destruct (get_prop ingestScript "assets") as [assets| |]; try discriminate.
  simpl. intros Hrun Hok. exists settings, dsn, assets.
  assert (Hloop : uploadAssets (iterated assets)
                    (write (call w (Connect dsn))
                       "[IngestFile] Processing ingest file." None)
                  = Returned (r, w')).
  { destruct assets; try discriminate; exact Hrun. }
  destruct (uploadAssets_success _ _ _ _ Hloop Hok) as [_ [requests [Hcalls Hall]]].
  exists requests. simpl in Hcalls. rewrite <- app_assoc in Hcalls.
  repeat split; assumption.
Qed.

(** X21.  When [processIngestFile] fails, it returns no result, and the
    error is the answer to the last call it made on the database: to
    [connect], after which it made no further call, or to an
    [establishCollection], after which it uploaded no further
    collection. *)
Theorem processIngestFile_failure (ingestScript : jsval) (w w' : Effects)
  (r : ResErr (option string)) (e : string) :
  processIngestFile ingestScript w = Returned (r, w') -> error r = Some e ->
  result r = None /\
  exists dsn,
    (connect (calls w) dsn = Some e /\ calls w' = (calls w ++ [Connect dsn])%list) \/
    (exists before request,
       calls w' = (calls w ++ Connect dsn :: before ++ [EstablishCollection request])%list /\
       error (establishCollection (calls w ++ Connect dsn :: before) request) = Some e).
Proof.
  unfold processIngestFile.
  destruct (get_prop ingestScript "settings") as [settings| |]; try discriminate.
  simpl. destruct (get_prop settings "dsn") as [dsn| |]; try discriminate.
  simpl. destruct (connect (calls w) dsn) as [e'|] eqn:Hconnect.
  { intros [= <- <-] [= <-]. split; [reflexivity|]. exists dsn. left. auto. }
  destruct (get_prop ingestScript "assets") as [assets| |]; try discriminate.
  simpl. intros Hrun Herr.
  assert (Hloop : uploadAssets (iterated assets)
                    (write (call w (Connect dsn))
                       "[IngestFile] Processing ingest file." None)
                  = Returned (r, w')).
  { destruct assets; try discriminate; exact Hrun. }
  destruct (uploadAssets_failure _ _ _ _ _ Hloop Herr)
    as [Hres [before [request [Hcalls Hanswer]]]].
  split; [exact Hres|]. exists dsn. right. exists before, request.
  simpl in Hcalls, Hanswer. rewrite <- app_assoc in Hcalls, Hanswer.
  split; assumption.
Qed.

(** X22.  [handleIngestFileInput] calls the database only for a manifest
    that [verifyIngestFile] has verified, and the first call is
    [connect] with the [settings.dsn] of the verified manifest: when the
    path, the file or the verification fails, no call is made. *)
Theorem handleIngestFileInput_database (args : list string) (w w' : Effects)
  (r : ResErr (option string)) :
  handleIngestFileInput args w = Returned (r, w') ->
  calls w' = calls w \/
  exists url verificationResult settings dsn more,
    readPathArgs args "" = Lod.Result url /\
    error (readIngestFile url) = None /\
    verifyIngestFile (result (readIngestFile url)) = Returned verificationResult /\
    error verificationResult = None /\
    get_prop (result verificationResult) "settings" = Returned settings /\
    get_prop settings "dsn" = Returned dsn /\
    calls w' = (calls w ++ Connect dsn :: more)%list.
Proof.
  unfold handleIngestFileInput.
  destruct (readPathArgs args "") as [url|e] eqn:Hargs;
    [|intros [= _ <-]; now left].
  destruct (String.eqb url ""); [intros [= _ <-]; now left|].
  destruct (error (readIngestFile url)) as [e|] eqn:Hread;
    [intros [= _ <-]; now left|].
  destruct (verifyIngestFile _) as [v| |] eqn:Hverify; try discriminate. simpl.
  destruct (error v) as [e|] eqn:Hok; [intros [= _ <-]; now left|].
  intros Hrun. right. exists url, v.
  revert Hrun. unfold processIngestFile.
  destruct (get_prop (result v) "settings") as [settings| |]; try discriminate.
  simpl. destruct (get_prop settings "dsn") as [dsn| |] eqn:Hdsn; try discriminate.
  simpl. destruct (connect _ dsn).
  { intros [= _ <-]. exists settings, dsn, []. repeat split; assumption. }
  destruct (get_prop (result v) "assets") as [assets| |]; try discriminate.
  simpl. intros Hrun.
  assert (Hloop : exists w0, calls w0 = (calls w ++ [Connect dsn])%list /\
                             uploadAssets (iterated assets) w0 = Returned (r, w')).
  { eexists. split; [|destruct assets; try discriminate; exact Hrun]. reflexivity. }
  destruct Hloop as [w0 [Hw0 Hloop]].
  destruct (error r) as [e|] eqn:Herr.
  - destruct (uploadAssets_failure _ _ _ _ _ Hloop Herr)
      as [_ [before [request [Hcalls _]]]].
    exists settings, dsn, (before ++ [EstablishCollection request])%list.
    rewrite Hcalls, Hw0, <- app_assoc. repeat split; assumption.
  - destruct (uploadAssets_success _ _ _ _ Hloop Herr) as [_ [requests [Hcalls _]]].
    exists settings, dsn, (map EstablishCollection requests).
    rewrite Hcalls, Hw0, <- app_assoc. repeat split; assumption.
Qed.

Lemma store_keys (k : string) (v1 v2 : jsval) (fs : list (string * jsval)) :
  map fst (store k v1 fs) = map fst (store k v2 fs).
Proof.
  induction fs as [|[k' v'] fs IH]; simpl; [reflexivity|].
  destruct (String.eqb k k'); simpl; congruence.
Qed.

Lemma settingsRows_dsn (v1 v2 : jsval) (fs : list (string * jsval)) (keys : list string) :
  settingsRows (store "dsn" v1 fs) keys = settingsRows (store "dsn" v2 fs) keys.
Proof.
  induction keys as [|key keys IH]; simpl; [reflexivity|]. rewrite IH.
  destruct (String.eqb_spec key "dsn") as [->|Hkey]; [reflexivity|].
  now rewrite !lookup_store_other by exact Hkey.
Qed.

(** X23.  What [printSettingsToLog] writes does not depend on the DSN:
    two settings that differ in the value of [dsn] only produce the same
    log entry (or throw alike). *)
Theorem printSettingsToLog_hides_dsn (fs : list (string * jsval)) (dsn dsn' : jsval)
  (w : Effects) :
  printSettingsToLog (JObj (store "dsn" dsn fs)) w
  = printSettingsToLog (JObj (store "dsn" dsn' fs)) w.
Proof.
  unfold printSettingsToLog.
  rewrite (store_keys "dsn" dsn dsn'), (settingsRows_dsn dsn dsn'). reflexivity.
Qed.

End RunFacts.


(** *** The properties at concrete runs *)

Definition run :=
  @handleIngestFileInput Sample.checker Sample.cli SampleMore.runtime
    SampleMore.database SampleMore.url_args.

Definition process := @processIngestFile SampleMore.database.

(** The theorem on arguments that name no path. *)
Lemma handleIngestFileInput_no_path_witness :
  run ["verbose"; "dry-run"] SampleMore.no_effects
  = Returned (failure "No path argument provided", SampleMore.no_effects).
Proof.
  assert (Hargs : Forall (fun arg => String.prefix "path=" arg = false)
                    ["verbose"; "dry-run"]) by (repeat constructor).
  exact (@handleIngestFileInput_no_path Sample.checker Sample.cli SampleMore.runtime
           SampleMore.database SampleMore.url_args _ SampleMore.no_effects Hargs).
Defined.

(** The theorem on the manifest of two collections around a single
    asset: one connection, two collections established. *)
Lemma processIngestFile_success_witness :
  exists r w' dsn requests,
    process SampleMore.good_manifest SampleMore.no_effects = Returned (r, w') /\
    error r = None /\
    calls w' = Connect dsn :: map EstablishCollection requests /\
    Forall2 (fun asset request => collectionRequest asset = Returned request)
      [SampleMore.collection "tiles"; SampleMore.collection "walls"] requests.
Proof.
  assert (Hrun : exists r w',
            process SampleMore.good_manifest SampleMore.no_effects = Returned (r, w') /\
            error r = None).
  { do 2 eexists. split; reflexivity. }
  destruct Hrun as [r [w' [Hrun Hok]]].
  destruct (@processIngestFile_success SampleMore.database _ _ _ _ Hrun Hok)
    as (settings & dsn & assets & requests & _ & _ & _ & Hassets & Hcalls & Hall).
  injection Hassets as <-.
  exists r, w', dsn, requests. repeat split; assumption.
Defined.

(** The theorem on the manifest whose second collection the database
    refuses: the third collection is not uploaded. *)
Lemma processIngestFile_failure_witness :
  exists r w',
    process SampleMore.refused_manifest SampleMore.no_effects = Returned (r, w') /\
    error r = Some "The collection was refused." /\ result r = None /\
    List.length (calls w') = 3.
Proof.
  assert (Hrun : exists r w',
            process SampleMore.refused_manifest SampleMore.no_effects = Returned (r, w') /\
            error r = Some "The collection was refused." /\
            List.length (calls w') = 3).
  { do 2 eexists. split; [reflexivity|]. split; reflexivity. }
  destruct Hrun as [r [w' [Hrun [Herr Hcalls]]]].
  destruct (@processIngestFile_failure SampleMore.database _ _ _ _ _ Hrun Herr)
    as [Hresult _].
  exists r, w'. repeat split; assumption.
Defined.

(** The theorem on the path of a manifest without [settings]. *)
Lemma handleIngestFileInput_database_witness :
  exists r w',
    run ["path=unsettled.json"] SampleMore.no_effects = Returned (r, w') /\
    calls w' = [].
Proof.
  assert (Hrun : exists r w',
            run ["path=unsettled.json"] SampleMore.no_effects = Returned (r, w')).
  { do 2 eexists. reflexivity. }
  destruct Hrun as [r [w' Hrun]].
  exists r, w'. split; [exact Hrun|].
  destruct (@handleIngestFileInput_database Sample.checker Sample.cli SampleMore.runtime
              SampleMore.database SampleMore.url_args _ _ _ _ Hrun)
    as [Hnone|(url & v & settings & dsn & more & Hurl & _ & Hverify & Hok & _)].
  - exact Hnone.
  - injection Hurl as <-. vm_compute in Hverify. injection Hverify as <-.
    discriminate.
Defined.

End CommandFacts.
